(** * TopticaAdapter: the line protocol of pymeasure/instruments/toptica/adapters.py

    A shallow embedding of the adapter class [TopticaAdapter] and the proofs of
    the properties its specification states.

    - Part 1 embeds the compiled pattern [_reg_value] and [extract_value].
    - Part 2 embeds the stateful methods ([check_acknowledgement], [read],
      [write], [ask], the constructor) as programs of a small state-and-error
      monad over the adapter object; the serial transport the class inherits
      from is an interface ([LineTransport]), with a scripted instance used to
      run the methods on concrete exchanges.
    - Parts 3 and 4 prove the working lemmas on the pattern and on the
      methods; Part 5 states and proves the properties of the specification. *)

From stdpp Require Import base strings list gmap.
From Stdlib Require Import Ascii QArith.

Local Close Scope Q_scope.
Local Open Scope string_scope.

(** ** Part 1: the reply pattern *)

Module Pattern.

(** A reply is a Python [str]; it is modelled by the [string] with the same
    code points, the character of code [n] standing for U+00n, so that the
    model covers the replies over U+0000..U+00FF (ASCII and Latin-1).  The
    pattern is a [str] pattern, whose [\w] and [\s] follow Unicode: on these
    code points [\w] is [[0-9A-Za-z_]] and the letters and numbers of Latin-1
    (170, 178, 179, 181, 185, 186, 188..190, 192..214, 216..246, 248..255),
    and [\s] is the blank (32), the controls 9..13, the separators 28..31,
    the next-line control (133) and the no-break space (160). *)
Definition is_word (c : ascii) : bool :=
  let n := N_of_ascii c in
  ((48 <=? n) && (n <=? 57) || (65 <=? n) && (n <=? 90) || (n =? 95) ||
   (97 <=? n) && (n <=? 122) || (n =? 170) || (178 <=? n) && (n <=? 179) ||
   (n =? 181) || (185 <=? n) && (n <=? 186) || (188 <=? n) && (n <=? 190) ||
   (192 <=? n) && (n <=? 214) || (216 <=? n) && (n <=? 246) ||
   (248 <=? n) && (n <=? 255))%N.

Definition is_space (c : ascii) : bool :=
  let n := N_of_ascii c in
  ((9 <=? n) && (n <=? 13) || (28 <=? n) && (n <=? 32) || (n =? 133) ||
   (n =? 160))%N.

(** [plus p s k] is the greedy quantifier [c+] of a backtracking matcher, for
    a character class [p]: it consumes as many characters of [s] as it can,
    hands the text it consumed and the rest of the input to the continuation
    [k] (the rest of the pattern) and, when [k] fails, gives one character
    back and tries again; it needs at least one character. *)
Fixpoint plus {A} (p : ascii -> bool) (s : string)
    (k : string -> string -> option A) : option A :=
  match s with
  | EmptyString => None
  | String c s' =>
      if p c then
        match plus p s' (fun taken rest => k (String c taken) rest) with
        | Some r => Some r
        | None => k (String c EmptyString) s'
        end
      else None
  end.

(** A literal character. *)
Definition lit {A} (c : ascii) (s : string) (k : string -> option A) : option A :=
  match s with
  | String c' s' => if Ascii.eqb c c' then k s' else None
  | EmptyString => None
  end.

(** The pattern [\w+\s+=\s+(\w+)] anchored at the start of [s]; the result is
    the text of its one capturing group. *)
Definition match_here (s : string) : option string :=
  plus is_word s (fun _ s1 =>
  plus is_space s1 (fun _ s2 =>
  lit "="%char s2 (fun s3 =>
  plus is_space s3 (fun _ s4 =>
  plus is_word s4 (fun group _ => Some group))))).

(** [_reg_value.search]: the match at the leftmost position that has one
    (every position is tried, from 0 to the length of the string). *)
Fixpoint _reg_value (s : string) : option string :=
  match match_here s with
  | Some group => Some group
  | None =>
      match s with
      | EmptyString => None
      | String _ s' => _reg_value s'
      end
  end.

(** [extract_value]: the first group of the match, or the reply itself. *)
Definition extract_value (reply : string) : string :=
  match _reg_value reply with
  | Some group => group
  | None => reply
  end.

(** *** Declarative reading of the pattern *)

Fixpoint all_chars (p : ascii -> bool) (s : string) : bool :=
  match s with
  | EmptyString => true
  | String c s' => p c && all_chars p s'
  end.

Definition starts_with (p : ascii -> bool) (s : string) : bool :=
  match s with
  | EmptyString => false
  | String c _ => p c
  end.

(** A non-empty run of characters of one class. *)
Definition run (p : ascii -> bool) (s : string) : Prop :=
  s <> "" /\ all_chars p s = true.

(** [s] begins with [name ws = ws value], the value token [v] being as long
    as it can be. *)
Definition matches_at (s v : string) : Prop :=
  exists name ws1 ws2 post,
    s = name +:+ ws1 +:+ "=" +:+ ws2 +:+ v +:+ post /\
    run is_word name /\ run is_space ws1 /\ run is_space ws2 /\
    run is_word v /\ starts_with is_word post = false.

(** [s] begins with [name ws = ws value] and the value token [v] ends where
    the reply ends or a blank follows: the value is a whole blank-separated
    word of the reply. *)
Definition whole_token_at (s v : string) : Prop :=
  exists name ws1 ws2 post,
    s = name +:+ ws1 +:+ "=" +:+ ws2 +:+ v +:+ post /\
    run is_word name /\ run is_space ws1 /\ run is_space ws2 /\
    run is_word v /\ (post = "" \/ starts_with is_space post = true).

(** The longest prefix of one class, and what follows it. *)
Fixpoint take_while (p : ascii -> bool) (s : string) : string :=
  match s with
  | EmptyString => EmptyString
  | String c s' => if p c then String c (take_while p s') else EmptyString
  end.

Fixpoint drop_while (p : ascii -> bool) (s : string) : string :=
  match s with
  | EmptyString => EmptyString
  | String c s' => if p c then drop_while p s' else s
  end.

(** One token: the longest non-empty prefix of a class and the rest. *)
Definition token (p : ascii -> bool) (s : string) : option (string * string) :=
  match take_while p s with
  | EmptyString => None
  | String _ _ as t => Some (t, drop_while p s)
  end.

(** The pattern read from left to right with no backtracking, every
    quantifier taking its longest token. *)
Definition match_longest (s : string) : option string :=
  match token is_word s with
  | None => None
  | Some (_, s1) =>
      match token is_space s1 with
      | None => None
      | Some (_, s2) =>
          match s2 with
          | EmptyString => None
          | String c s3 =>
              if Ascii.eqb "="%char c then
                match token is_space s3 with
                | None => None
                | Some (_, s4) =>
                    match token is_word s4 with
                    | None => None
                    | Some (group, _) => Some group
                    end
                end
              else None
          end
      end
  end.

End Pattern.

(** ** Part 2: the adapter and its transport *)

Module Protocol.
Import Pattern.

(** The exceptions a method can end in.  Both protocol errors of the class are
    Python [ValueError]s, told apart by their message; a failure of the
    transport passes through the adapter unchanged. *)
Inductive exn : Type :=
| ValueError (msg : string)
| AttributeError (msg : string)
| TransportError (info : string).

Inductive result (A : Type) : Type :=
| Ok (a : A)
| Raise (e : exn).
Arguments Ok {A} a.
Arguments Raise {A} e.

(** What a call on the transport comes back with. *)
Inductive outcome (A : Type) : Type :=
| Done (a : A)
| Failed (info : string).
Arguments Done {A} a.
Arguments Failed {A} info.

Definition lift {A} (o : outcome A) : result A :=
  match o with
  | Done a => Ok a
  | Failed info => Raise (TransportError info)
  end.

(** Values of the keyword arguments the constructor hands on. *)
Inductive kwvalue : Type :=
| KCallable (f : string -> string)
| KStr (s : string)
| KNum (q : Q).

(** [dict.setdefault]. *)
Definition setdefault (key : string) (v : kwvalue) (kwargs : gmap string kwvalue)
    : gmap string kwvalue :=
  match kwargs !! key with
  | Some _ => kwargs
  | None => <[key := v]> kwargs
  end.

Definition CRLF : string := String "013"%char (String "010"%char EmptyString).

(** The base class [VISAAdapter] and its [connection], as the interface the
    adapter consumes: opening a resource, assigning [connection.baud_rate],
    the base [write] (which frames the command with the write terminator),
    the base [read] (one line, terminator removed), [flush], and the
    [query_delay] attribute of the connection (seconds). *)
Class LineTransport (T : Type) : Type := {
  visa_open : string -> gmap string kwvalue -> outcome T;
  visa_set_baud_rate : Z -> T -> outcome unit * T;
  visa_write : string -> T -> outcome unit * T;
  visa_read : T -> outcome string * T;
  visa_flush : T -> outcome unit * T;
  visa_query_delay : T -> Q
}.

(** A call made on the transport or on the clock, as a mock would record it. *)
Inductive call : Type :=
| Open (port : string) (kwargs : gmap string kwvalue)
| SetBaud (baud_rate : Z)
| Write (command : string)
| ReadLine
| Flush
| Sleep (seconds : Q).

(** The adapter object: its connection, the attribute [lastcommand] (absent
    until the first [write]) and the calls made so far, in order. *)
Record adapter (T : Type) : Type := Adapter {
  connection : T;
  lastcommand : option string;
  trace : list call
}.
Arguments Adapter {T} _ _ _.
Arguments connection {T} _.
Arguments lastcommand {T} _.
Arguments trace {T} _.

(** Methods are state transformers on the adapter that return or raise. *)
Definition M (T A : Type) : Type := adapter T -> result A * adapter T.

Definition ret {T A} (a : A) : M T A := fun self => (Ok a, self).

Definition raise {T A} (e : exn) : M T A := fun self => (Raise e, self).

Definition bind {T A B} (m : M T A) (k : A -> M T B) : M T B :=
  fun self =>
    match m self with
    | (Ok a, self') => k a self'
    | (Raise e, self') => (Raise e, self')
    end.

Notation "'do' x <- m ; k" := (bind m (fun x => k))
  (at level 10, x name, m at level 100, k at level 200).
Notation "m ;; k" := (bind m (fun _ => k))
  (at level 100, k at level 200, right associativity).

(** The message of the [ValueError] that [time.sleep] raises. *)
Definition sleep_message : string := "sleep length must be non-negative".

Section Methods.
Context {T : Type} {LT : LineTransport T}.

(** One call on the connection: the connection moves on, the call is
    recorded, the outcome is returned or raised. *)
Definition on_connection {A} (c : call) (op : T -> outcome A * T) : M T A :=
  fun self =>
    let '(o, t) := op (connection self) in
    (lift o, Adapter t (lastcommand self) (trace self ++ [c])).

(** [self.connection.baud_rate = baud_rate] *)
Definition set_baud_rate (baud_rate : Z) : M T unit :=
  on_connection (SetBaud baud_rate) (visa_set_baud_rate baud_rate).

(** [super().write(command)] *)
Definition super_write (command : string) : M T unit :=
  on_connection (Write command) (visa_write command).

(** [super().read()] *)
Definition super_read : M T string :=
  on_connection ReadLine visa_read.

(** [self.flush()] *)
Definition flush : M T unit :=
  on_connection Flush visa_flush.

(** [time.sleep(seconds)]: the call is made and raises on a negative
    argument. *)
Definition sleep (seconds : Q) : M T unit :=
  fun self =>
    let self' :=
      Adapter (connection self) (lastcommand self) (trace self ++ [Sleep seconds]) in
    if Qle_bool 0 seconds then (Ok tt, self')
    else (Raise (ValueError sleep_message), self').

(** [self.connection.query_delay] *)
Definition query_delay : M T Q :=
  fun self => (Ok (visa_query_delay (connection self)), self).

(** [self.lastcommand = command] *)
Definition set_lastcommand (command : string) : M T unit :=
  fun self => (Ok tt, Adapter (connection self) (Some command) (trace self)).

(** Reading [self.lastcommand]; the attribute does not exist before the first
    [write]. *)
Definition get_lastcommand : M T string :=
  fun self =>
    match lastcommand self with
    | Some command => (Ok command, self)
    | None =>
        (Raise (AttributeError
           "'TopticaAdapter' object has no attribute 'lastcommand'"), self)
    end.

Definition ack_message (command reply : string) : string :=
  "TopticaAdapter: Error after command '" +:+ command +:+
  "' with message '" +:+ reply +:+ "'".

Definition echo_message (command reply : string) : string :=
  "TopticaAdapter.write: Error after command '" +:+ command +:+
  "' with message '" +:+ reply +:+ "'".

Definition check_acknowledgement (reply : string) : M T unit :=
  if negb (String.eqb reply "[OK]") then
    flush ;;
    do command <- get_lastcommand ;
    raise (ValueError (ack_message command reply))
  else ret tt.

Definition read : M T string :=
  do reply <- super_read ;
  do ack <- super_read ;
  check_acknowledgement ack ;;
  ret reply.

Definition write (command : string) (check_ack : bool) : M T unit :=
  set_lastcommand command ;;
  super_write command ;;
  do reply <- super_read ;
  if negb (String.eqb reply "") then
    raise (ValueError (echo_message command reply))
  else if check_ack then
    do ack <- super_read ;
    check_acknowledgement ack
  else ret tt.

Definition ask (command : string) : M T string :=
  write command false ;;
  do delay <- query_delay ;
  sleep delay ;;
  read.

(** The three [kwargs.setdefault] lines of [__init__]. *)
Definition init_kwargs (kwargs : gmap string kwvalue) : gmap string kwvalue :=
  setdefault "write_termination" (KStr CRLF)
    (setdefault "read_termination" (KStr CRLF)
       (setdefault "preprocess_reply" (KCallable extract_value) kwargs)).

Definition settle_delay : Q := 0.04%Q.

(** The body of [__init__] once [super().__init__] has returned. *)
Definition init (baud_rate : Z) : M T unit :=
  set_baud_rate baud_rate ;;
  super_write "echo off" ;;
  super_write "prom off" ;;
  sleep settle_delay ;;
  flush ;;
  do _ <- ask "talk usual" ;
  ret tt.

(** [TopticaAdapter(port, baud_rate, **kwargs)]: the adapter, or the exception
    that ended the construction. *)
Definition TopticaAdapter (port : string) (baud_rate : Z)
    (kwargs : gmap string kwvalue) : result (adapter T) :=
  let kwargs := init_kwargs kwargs in
  match visa_open port kwargs with
  | Failed info => Raise (TransportError info)
  | Done t =>
      match init baud_rate (Adapter t None [Open port kwargs]) with
      | (Ok _, self) => Ok self
      | (Raise e, _) => Raise e
      end
  end.

End Methods.

(** Modelled from the spec: the serial transport behind [VISAAdapter] is not
    part of this file.  The scripted transport below is the line transport of
    the specification (write bytes, read a line, flush the input, a baud rate
    that can be set after opening, configurable write terminator and query
    delay) attached to a scripted instrument, in the manner of a protocol
    test: every command written makes the instrument queue the next batch of
    reply lines of its script; a read takes the oldest buffered line and times
    out on an empty buffer; a flush drops what is buffered. *)
Record scripted : Type := Scripted {
  baud_rate : Z;
  write_termination : string;
  delay : Q;
  wire : list string;
  inbuf : list string;
  script : list (list string)
}.

Definition scripted_open (boot : list string) (replies : list (list string))
    (d : Q) (port : string) (kwargs : gmap string kwvalue) : outcome scripted :=
  let term := match kwargs !! "write_termination" with
              | Some (KStr t) => t
              | _ => EmptyString
              end in
  Done (Scripted 9600 term d [] boot replies).

Definition scripted_set_baud_rate (b : Z) (m : scripted) : outcome unit * scripted :=
  (Done tt, Scripted b (write_termination m) (delay m) (wire m) (inbuf m) (script m)).

Definition scripted_write (command : string) (m : scripted) : outcome unit * scripted :=
  (Done tt,
   Scripted (baud_rate m) (write_termination m) (delay m)
     (wire m ++ [command +:+ write_termination m])
     (inbuf m ++ hd [] (script m)) (tl (script m))).

Definition scripted_read (m : scripted) : outcome string * scripted :=
  match inbuf m with
  | [] => (Failed "VI_ERROR_TMO", m)
  | line :: rest =>
      (Done line,
       Scripted (baud_rate m) (write_termination m) (delay m) (wire m) rest (script m))
  end.

Definition scripted_flush (m : scripted) : outcome unit * scripted :=
  (Done tt,
   Scripted (baud_rate m) (write_termination m) (delay m) (wire m) [] (script m)).

Definition ScriptedTransport (boot : list string) (replies : list (list string))
    (d : Q) : LineTransport scripted := {|
  visa_open := scripted_open boot replies d;
  visa_set_baud_rate := scripted_set_baud_rate;
  visa_write := scripted_write;
  visa_read := scripted_read;
  visa_flush := scripted_flush;
  visa_query_delay := delay
|}.

(** An adapter on a scripted connection whose input buffer holds [lines]. *)
Definition holding (lines : list string) (last : option string) : adapter scripted :=
  Adapter (Scripted 115200 CRLF 0.1%Q [] lines []) last [].

(** A bench connection with nothing scripted: what the instrument sends is
    put in the input buffer by hand ([holding]). *)
Definition bench : LineTransport scripted := ScriptedTransport [] [] 0.1%Q.

(** A console that greets with a banner, answers the three commands of the
    handshake and then one power query. *)
Definition console : LineTransport scripted :=
  ScriptedTransport ["iBEAM console"]
    [ [""; "[OK]"]; [""; "[OK]"]; [""; "mode = usual"; "[OK]"];
      [""; "power = 12.3 mW"; "[OK]"] ] 0.1%Q.


(** [needle] occurs in [text]. *)
Definition occurs_in (needle text : string) : Prop :=
  exists before after, text = before +:+ needle +:+ after.

(** The number of calls of one kind in a trace. *)
Definition is_read (c : call) : bool :=
  match c with ReadLine => true | _ => false end.

Definition is_flush (c : call) : bool :=
  match c with Flush => true | _ => false end.

Definition is_write (c : call) : bool :=
  match c with Write _ => true | _ => false end.

Definition count (kind : call -> bool) (tr : list call) : nat :=
  length (filter (fun c => kind c = true) tr).

End Protocol.

(** ** Part 3: the pattern, proved *)

Module PatternFacts.
Import Pattern.

(** *** Character classes *)

Lemma word_not_space (c : ascii) : is_word c = true -> is_space c = false.
Proof. destruct c as [[] [] [] [] [] [] [] []]; vm_compute; congruence. Qed.

Lemma space_not_word (c : ascii) : is_space c = true -> is_word c = false.
Proof. destruct c as [[] [] [] [] [] [] [] []]; vm_compute; congruence. Qed.

Lemma equals_not_word : is_word "="%char = false.
Proof. reflexivity. Qed.

Lemma equals_not_space : is_space "="%char = false.
Proof. reflexivity. Qed.

(** *** Strings *)

Lemma app_cons c (a b : string) : String c a +:+ b = String c (a +:+ b).
Proof. reflexivity. Qed.

Lemma app_empty_l (b : string) : "" +:+ b = b.
Proof. reflexivity. Qed.

Ltac string_app := rewrite ?app_cons, ?app_empty_l in *; simpl in *.

Lemma app_empty_r (s : string) : s +:+ "" = s.
Proof. induction s as [|c s IH]; string_app; [reflexivity | by f_equal]. Qed.

Lemma str_app_assoc (a b c : string) : (a +:+ b) +:+ c = a +:+ b +:+ c.
Proof. induction a as [|x a IH]; string_app; [reflexivity | by f_equal]. Qed.

Lemma str_app_length (a b : string) :
  String.length (a +:+ b) = String.length a + String.length b.
Proof. induction a as [|x a IH]; string_app; [reflexivity | by f_equal]. Qed.

Lemma all_chars_app p (a b : string) :
  all_chars p (a +:+ b) = all_chars p a && all_chars p b.
Proof.
  induction a as [|x a IH]; string_app; [reflexivity |].
  rewrite IH. by destruct (p x).
Qed.

(** *** The longest prefix of a class *)

Lemma take_drop p (s : string) : take_while p s +:+ drop_while p s = s.
Proof.
  induction s as [|c s IH]; simpl; [reflexivity |].
  destruct (p c); string_app; [by rewrite IH | reflexivity].
Qed.

Lemma take_while_all p (s : string) : all_chars p (take_while p s) = true.
Proof.
  induction s as [|c s IH]; simpl; [reflexivity |].
  destruct (p c) eqn:E; simpl; [by rewrite E | reflexivity].
Qed.

Lemma drop_while_start p (s : string) : starts_with p (drop_while p s) = false.
Proof.
  induction s as [|c s IH]; simpl; [reflexivity |].
  destruct (p c) eqn:E; simpl; [exact IH | exact E].
Qed.

Lemma take_while_empty p (s : string) :
  take_while p s = "" <-> starts_with p s = false.
Proof.
  destruct s as [|c s]; simpl; [tauto |].
  destruct (p c); split; congruence.
Qed.

Lemma drop_while_id p (s : string) : starts_with p s = false -> drop_while p s = s.
Proof. destruct s as [|c s]; simpl; [reflexivity |]. by intros ->. Qed.

Lemma take_while_app p (a b : string) :
  all_chars p a = true -> starts_with p b = false -> take_while p (a +:+ b) = a.
Proof.
  induction a as [|x a IH]; intros Ha Hb; string_app.
  - by apply take_while_empty.
  - apply andb_prop in Ha as [-> Ha]. by rewrite IH.
Qed.

Lemma drop_while_app p (a b : string) :
  all_chars p a = true -> starts_with p b = false -> drop_while p (a +:+ b) = b.
Proof.
  induction a as [|x a IH]; intros Ha Hb; string_app.
  - by apply drop_while_id.
  - apply andb_prop in Ha as [-> Ha]. by rewrite IH.
Qed.

Lemma starts_with_run p q (a b : string) :
  (forall c, p c = true -> q c = false) ->
  run p a -> starts_with q (a +:+ b) = false.
Proof.
  intros Hpq [Hne Ha]. destruct a as [|x a]; [done |]. string_app.
  apply andb_prop in Ha as [Hx _]. by apply Hpq.
Qed.

(** *** The greedy quantifier *)

(** A quantifier needs a first character of its class. *)
Lemma plus_no_start {A} p (s : string) (k : string -> string -> option A) :
  starts_with p s = false -> plus p s k = None.
Proof. destruct s as [|c s]; simpl; [reflexivity |]. by intros ->. Qed.

(** When the rest of the pattern cannot begin with a character of the class,
    giving characters back never helps: the quantifier takes the longest
    prefix or fails. *)
Lemma plus_longest {A} p (s : string) (k : string -> string -> option A) :
  (forall taken rest, starts_with p rest = true -> k taken rest = None) ->
  plus p s k =
    match take_while p s with
    | EmptyString => None
    | String _ _ as taken => k taken (drop_while p s)
    end.
Proof.
  revert k. induction s as [|c s IH]; intros k Hk; simpl; [reflexivity |].
  destruct (p c) eqn:Hc; [| reflexivity].
  rewrite IH by (intros; by apply Hk).
  destruct (take_while p s) as [|d t] eqn:Ht.
  - apply take_while_empty in Ht. by rewrite (drop_while_id _ _ Ht).
  - destruct (k (String c (String d t)) (drop_while p s)) eqn:Hr; [reflexivity |].
    apply Hk. destruct s as [|e s]; simpl in *; [discriminate |].
    by destruct (p e).
Qed.

(** The last quantifier of the pattern: its continuation accepts anything, so
    the group is the longest prefix. *)
Lemma plus_group {A} p (s : string) (f : string -> A) :
  plus p s (fun group _ => Some (f group)) =
    match take_while p s with
    | EmptyString => None
    | String _ _ as group => Some (f group)
    end.
Proof.
  revert f. induction s as [|c s IH]; intros f; simpl; [reflexivity |].
  destruct (p c); [| reflexivity].
  rewrite (IH (fun g => f (String c g))).
  by destruct (take_while p s).
Qed.

(** *** The anchored match *)

Lemma plus_token {A} p (s : string) (k : string -> string -> option A) :
  (forall taken rest, starts_with p rest = true -> k taken rest = None) ->
  plus p s k =
    match token p s with
    | None => None
    | Some (taken, rest) => k taken rest
    end.
Proof.
  intros Hk. rewrite plus_longest by exact Hk. unfold token.
  by destruct (take_while p s).
Qed.

Lemma starts_other p q (s : string) :
  (forall c, p c = true -> q c = false) ->
  starts_with p s = true -> starts_with q s = false.
Proof. intros Hpq. destruct s as [|c s]; simpl; [done | apply Hpq]. Qed.

(** Backtracking never changes the outcome of this pattern: what follows a
    quantifier cannot begin with a character of the quantifier's class. *)
Lemma match_here_longest (s : string) : match_here s = match_longest s.
Proof.
  unfold match_here, match_longest.
  rewrite plus_token.
  2:{ intros _ rest Hr. apply plus_no_start.
      by apply (starts_other is_word is_space), Hr; apply word_not_space. }
  destruct (token is_word s) as [[_ s1]|]; [| reflexivity].
  rewrite plus_token.
  2:{ intros _ [|c rest] Hr; unfold lit; [done |].
      destruct (Ascii.eqb_spec "="%char c) as [<-|]; [| reflexivity].
      by vm_compute in Hr. }
  destruct (token is_space s1) as [[_ s2]|]; [| reflexivity].
  unfold lit. destruct s2 as [|c s3]; [reflexivity |].
  destruct (Ascii.eqb "="%char c); [| reflexivity].
  rewrite plus_token.
  2:{ intros _ rest Hr. apply plus_no_start.
      by apply (starts_other is_space is_word), Hr; apply space_not_word. }
  destruct (token is_space s3) as [[_ s4]|]; [| reflexivity].
  rewrite (plus_group is_word s4 (fun g => g)). unfold token.
  by destruct (take_while is_word s4).
Qed.

Lemma token_some p (s t rest : string) :
  token p s = Some (t, rest) ->
  s = t +:+ rest /\ run p t /\ starts_with p rest = false.
Proof.
  unfold token, run. intros Ht.
  pose proof (take_drop p s) as Hs.
  pose proof (take_while_all p s) as Ha.
  pose proof (drop_while_start p s) as Hd.
  destruct (take_while p s) as [|c t'] eqn:E; [discriminate |].
  injection Ht as <- <-. by rewrite Hs.
Qed.

Lemma token_app p (t rest : string) :
  run p t -> starts_with p rest = false -> token p (t +:+ rest) = Some (t, rest).
Proof.
  intros [Hne Ha] Hr. unfold token.
  rewrite take_while_app, drop_while_app by done.
  by destruct t.
Qed.

Lemma match_longest_sound (s v : string) : match_longest s = Some v -> matches_at s v.
Proof.
  unfold match_longest. intros Hm.
  destruct (token is_word s) as [[name s1]|] eqn:E1; [| discriminate].
  destruct (token is_space s1) as [[ws1 s2]|] eqn:E2; [| discriminate].
  destruct s2 as [|c s3]; [discriminate |].
  destruct (Ascii.eqb_spec "="%char c) as [<-|]; [| discriminate].
  destruct (token is_space s3) as [[ws2 s4]|] eqn:E3; [| discriminate].
  destruct (token is_word s4) as [[group post]|] eqn:E4; [| discriminate].
  injection Hm as ->.
  apply token_some in E1 as (-> & Hn & _), E2 as (-> & Hw1 & _).
  apply token_some in E3 as (-> & Hw2 & _), E4 as (-> & Hv & Hpost).
  by exists name, ws1, ws2, post.
Qed.

Lemma match_longest_complete (s v : string) : matches_at s v -> match_longest s = Some v.
Proof.
  intros (name & ws1 & ws2 & post & -> & Hn & Hw1 & Hw2 & Hv & Hpost).
  unfold match_longest.
  rewrite (token_app is_word name)
    by (try done; by apply (starts_with_run is_space); [apply space_not_word |]).
  rewrite (token_app is_space ws1) by done.
  change ("=" +:+ ws2 +:+ v +:+ post) with (String "="%char (ws2 +:+ v +:+ post)).
  simpl.
  rewrite (token_app is_space ws2)
    by (try done; by apply (starts_with_run is_word); [apply word_not_space |]).
  by rewrite (token_app is_word v).
Qed.

(** The matcher accepts at the start of [s], with group [v], exactly when [s]
    reads [name ws = ws v ...] with [v] as long as it can be. *)
Lemma match_here_iff (s v : string) : match_here s = Some v <-> matches_at s v.
Proof.
  rewrite match_here_longest. split;
    [apply match_longest_sound | apply match_longest_complete].
Qed.

(** *** The search *)

Lemma reg_value_eq (s : string) :
  _reg_value s =
    match match_here s with
    | Some group => Some group
    | None =>
        match s with
        | EmptyString => None
        | String _ s' => _reg_value s'
        end
    end.
Proof. by destruct s. Qed.

(** The search fails exactly when the pattern matches at no position. *)
Lemma reg_value_none (r : string) :
  _reg_value r = None <-> forall pre s, r = pre +:+ s -> match_here s = None.
Proof.
  induction r as [|c r IH]; rewrite reg_value_eq.
  - split; [| reflexivity]. intros _ [|x pre] s Hs; string_app; [by subst | done].
  - split.
    + intros Hr [|x pre] s Hs; string_app.
      * subst s. by destruct (match_here (String c r)).
      * injection Hs as <- Hs. destruct (match_here (String c r)); [done |].
        by apply (proj1 IH Hr pre).
    + intros Hall. rewrite (Hall "" (String c r)) by done.
      apply IH. intros pre s ->. by apply (Hall (String c pre)).
Qed.

(** The search returns the group of the match at the leftmost position that
    has one. *)
Lemma reg_value_some (r v : string) :
  _reg_value r = Some v <->
  exists pre s, r = pre +:+ s /\ match_here s = Some v /\
    forall pre' s', r = pre' +:+ s' ->
      String.length pre' < String.length pre -> match_here s' = None.
Proof.
  revert v. induction r as [|c r IH]; intros v; rewrite reg_value_eq.
  - split; [done |]. intros ([|x pre] & s & Hs & Hm & _); string_app; [| done].
    subst s. by vm_compute in Hm.
  - split.
    + destruct (match_here (String c r)) as [g|] eqn:Hg.
      * intros [= ->]. exists "", (String c r). repeat split; [done |].
        simpl. lia.
      * intros (pre & s & -> & Hm & Hmin)%IH.
        exists (String c pre), s. repeat split; [done |].
        intros [|x pre'] s' Hs' Hlen; string_app; [by subst s' |].
        injection Hs' as <- Hs'. apply (Hmin pre' s' Hs'). lia.
    + intros ([|x pre] & s & Hs & Hm & Hmin); string_app.
      * subst s. by rewrite Hm.
      * injection Hs as <- ->.
        rewrite (Hmin "" (String c (pre +:+ s))) by (simpl; done || lia).
        apply IH. exists pre, s. repeat split; [done |].
        intros pre' s' Hs' Hlen. apply (Hmin (String c pre') s').
        -- by rewrite app_cons, Hs'.
        -- simpl. lia.
Qed.

(** A run of word characters holds no match: the pattern needs blanks. *)
Lemma word_run_no_match (v : string) : all_chars is_word v = true -> _reg_value v = None.
Proof.
  intros Hv. apply reg_value_none. intros pre s ->.
  destruct (match_here s) as [g|] eqn:Hg; [| reflexivity].
  apply match_here_iff in Hg as (name & ws1 & ws2 & post & -> & _ & [Hne Hw] & _).
  rewrite !all_chars_app in Hv.
  destruct ws1 as [|x ws1]; [done |]. simpl in Hv, Hw.
  apply andb_prop in Hw as [Hx _]. apply space_not_word in Hx.
  rewrite Hx in Hv. simpl in Hv.
  by rewrite !andb_false_r in Hv.
Qed.

(** What [extract_value] returns never matches the pattern again. *)
Lemma extracted_no_match (r : string) : _reg_value (extract_value r) = None.
Proof.
  unfold extract_value. destruct (_reg_value r) as [v|] eqn:Hr; [| exact Hr].
  apply reg_value_some in Hr as (pre & s & _ & Hm & _).
  apply match_here_iff in Hm as (_ & _ & _ & _ & _ & _ & _ & _ & [_ Hv] & _).
  by apply word_run_no_match.
Qed.

Lemma extract_value_match (r pre s v : string) :
  r = pre +:+ s ->
  matches_at s v ->
  (forall pre' s' v',
      r = pre' +:+ s' -> String.length pre' < String.length pre -> ~ matches_at s' v') ->
  extract_value r = v.
Proof.
  intros Hr Hm Hmin. unfold extract_value.
  assert (_reg_value r = Some v) as ->; [| reflexivity].
  apply reg_value_some. exists pre, s. repeat split; [done | by apply match_here_iff |].
  intros pre' s' Hs' Hlen. destruct (match_here s') as [v'|] eqn:E; [| reflexivity].
  apply match_here_iff in E. by destruct (Hmin pre' s' v').
Qed.

Lemma extract_value_no_match (r : string) :
  (forall pre s v, r = pre +:+ s -> ~ matches_at s v) -> extract_value r = r.
Proof.
  intros Hno. unfold extract_value.
  assert (_reg_value r = None) as ->; [| reflexivity].
  apply reg_value_none. intros pre s Hs.
  destruct (match_here s) as [v|] eqn:E; [| reflexivity].
  apply match_here_iff in E. by destruct (Hno pre s v).
Qed.

(** A reply on which the search fails holds the pattern nowhere. *)
Lemma no_match_anywhere (r : string) :
  _reg_value r = None -> forall pre s v, r = pre +:+ s -> ~ matches_at s v.
Proof.
  intros Hr pre s v Hs Hm%match_here_iff.
  rewrite (proj1 (reg_value_none r) Hr pre s Hs) in Hm. discriminate.
Qed.

Lemma extract_value_idempotent (r : string) :
  extract_value (extract_value r) = extract_value r.
Proof.
  unfold extract_value at 1. by rewrite extracted_no_match.
Qed.

End PatternFacts.

(** ** Part 4: the protocol, proved *)

Module ProtocolFacts.
Import Pattern Protocol.

Section Generic.
Context {T : Type} {LT : LineTransport T}.

(** *** Running the monad *)

Lemma bind_ok {A B} (m : M T A) (k : A -> M T B) self a self' :
  m self = (Ok a, self') -> bind m k self = k a self'.
Proof. unfold bind. by intros ->. Qed.

Lemma bind_raise {A B} (m : M T A) (k : A -> M T B) self e self' :
  m self = (Raise e, self') -> bind m k self = (Raise e, self').
Proof. unfold bind. by intros ->. Qed.

Lemma bind_inv_ok {A B} (m : M T A) (k : A -> M T B) self b self'' :
  bind m k self = (Ok b, self'') ->
  exists a self', m self = (Ok a, self') /\ k a self' = (Ok b, self'').
Proof.
  unfold bind. destruct (m self) as [[a|e] self'] eqn:E; [eauto | done].
Qed.

Lemma on_connection_run {A} (c : call) (op : T -> outcome A * T) self o t :
  op (connection self) = (o, t) ->
  on_connection c op self = (lift o, Adapter t (lastcommand self) (trace self ++ [c])).
Proof. unfold on_connection. by intros ->. Qed.

Lemma on_connection_inv {A} (c : call) (op : T -> outcome A * T) self r self' :
  on_connection c op self = (r, self') ->
  exists o t, op (connection self) = (o, t) /\ r = lift o /\
    self' = Adapter t (lastcommand self) (trace self ++ [c]).
Proof.
  unfold on_connection. destruct (op (connection self)) as [o t].
  intros [= <- <-]. by exists o, t.
Qed.

(** *** Messages *)

Lemma ack_message_command (command reply : string) :
  occurs_in command (ack_message command reply).
Proof. by eexists _, _. Qed.

Lemma ack_message_reply (command reply : string) :
  occurs_in reply (ack_message command reply).
Proof.
  exists ("TopticaAdapter: Error after command '" +:+ command +:+ "' with message '"), "'".
  unfold ack_message. by rewrite !PatternFacts.str_app_assoc.
Qed.

Lemma echo_message_command (command reply : string) :
  occurs_in command (echo_message command reply).
Proof. by eexists _, _. Qed.

Lemma echo_message_reply (command reply : string) :
  occurs_in reply (echo_message command reply).
Proof.
  exists ("TopticaAdapter.write: Error after command '" +:+ command +:+ "' with message '"), "'".
  unfold echo_message. by rewrite !PatternFacts.str_app_assoc.
Qed.

Lemma eqb_ok (reply : string) : reply = "[OK]" -> negb (String.eqb reply "[OK]") = false.
Proof. intros ->. reflexivity. Qed.

Lemma eqb_not (reply other : string) : reply <> other -> negb (String.eqb reply other) = true.
Proof. intros Hne. by apply negb_true_iff, String.eqb_neq. Qed.

(** *** [check_acknowledgement] *)

Lemma check_ok (self : adapter T) : check_acknowledgement "[OK]" self = (Ok tt, self).
Proof. reflexivity. Qed.

Lemma check_bad (reply command : string) (self : adapter T) t :
  reply <> "[OK]" ->
  lastcommand self = Some command ->
  visa_flush (connection self) = (Done tt, t) ->
  check_acknowledgement reply self =
    (Raise (ValueError (ack_message command reply)),
     Adapter t (Some command) (trace self ++ [Flush])).
Proof.
  intros Hne Hlast Hflush. unfold check_acknowledgement.
  rewrite (eqb_not _ _ Hne).
  rewrite (bind_ok _ _ _ tt (Adapter t (lastcommand self) (trace self ++ [Flush])))
    by (unfold flush; by rewrite (on_connection_run _ _ _ _ _ Hflush)).
  unfold bind, get_lastcommand, raise. simpl. by rewrite Hlast.
Qed.

Lemma check_flush_fails (reply info : string) (self : adapter T) t :
  reply <> "[OK]" ->
  visa_flush (connection self) = (Failed info, t) ->
  check_acknowledgement reply self =
    (Raise (TransportError info),
     Adapter t (lastcommand self) (trace self ++ [Flush])).
Proof.
  intros Hne Hflush. unfold check_acknowledgement.
  rewrite (eqb_not _ _ Hne).
  apply bind_raise. unfold flush. by rewrite (on_connection_run _ _ _ _ _ Hflush).
Qed.

(** *** [read] *)

Lemma read_ok (self : adapter T) data t1 t2 :
  visa_read (connection self) = (Done data, t1) ->
  visa_read t1 = (Done "[OK]", t2) ->
  read self = (Ok data, Adapter t2 (lastcommand self) (trace self ++ [ReadLine; ReadLine])).
Proof.
  intros H1 H2. unfold read.
  rewrite (bind_ok _ _ _ data (Adapter t1 (lastcommand self) (trace self ++ [ReadLine])))
    by (unfold super_read; by rewrite (on_connection_run _ _ _ _ _ H1)).
  rewrite (bind_ok _ _ _ "[OK]"
             (Adapter t2 (lastcommand self) ((trace self ++ [ReadLine]) ++ [ReadLine])))
    by (unfold super_read; by rewrite (on_connection_run _ _ _ (Done "[OK]") t2)).
  rewrite (bind_ok _ _ _ _ _ (check_ok _)). unfold ret.
  by rewrite <- app_assoc.
Qed.

Lemma read_bad (self : adapter T) data ack command t1 t2 t3 :
  visa_read (connection self) = (Done data, t1) ->
  visa_read t1 = (Done ack, t2) ->
  ack <> "[OK]" ->
  lastcommand self = Some command ->
  visa_flush t2 = (Done tt, t3) ->
  read self =
    (Raise (ValueError (ack_message command ack)),
     Adapter t3 (Some command) (trace self ++ [ReadLine; ReadLine; Flush])).
Proof.
  intros H1 H2 Hne Hlast Hflush. unfold read.
  rewrite (bind_ok _ _ _ data (Adapter t1 (lastcommand self) (trace self ++ [ReadLine])))
    by (unfold super_read; by rewrite (on_connection_run _ _ _ _ _ H1)).
  rewrite (bind_ok _ _ _ ack
             (Adapter t2 (lastcommand self) ((trace self ++ [ReadLine]) ++ [ReadLine])))
    by (unfold super_read; by rewrite (on_connection_run _ _ _ (Done ack) t2)).
  erewrite bind_raise; [| by apply (check_bad ack command)].
  simpl. by rewrite <- !app_assoc.
Qed.

(** *** [write] *)

Lemma write_send_fails (command info : string) (check_ack : bool) (self : adapter T) t :
  visa_write command (connection self) = (Failed info, t) ->
  write command check_ack self =
    (Raise (TransportError info),
     Adapter t (Some command) (trace self ++ [Write command])).
Proof.
  intros Hw. unfold write, set_lastcommand, super_write, bind, on_connection.
  simpl. by rewrite Hw.
Qed.

Lemma write_echo (command echo : string) (check_ack : bool) (self : adapter T) t1 t2 :
  visa_write command (connection self) = (Done tt, t1) ->
  visa_read t1 = (Done echo, t2) ->
  write command check_ack self =
    (if negb (String.eqb echo "") then
       raise (ValueError (echo_message command echo))
     else if check_ack then
       do ack <- super_read ;
       check_acknowledgement ack
     else ret tt)
      (Adapter t2 (Some command) (trace self ++ [Write command; ReadLine])).
Proof.
  intros Hw Hr. unfold write, set_lastcommand, super_write, super_read, bind at 1 2 3,
    on_connection.
  simpl. rewrite Hw. simpl. rewrite Hr. simpl. by rewrite <- app_assoc.
Qed.

Lemma write_echo_bad (command echo : string) (check_ack : bool) (self : adapter T) t1 t2 :
  visa_write command (connection self) = (Done tt, t1) ->
  visa_read t1 = (Done echo, t2) ->
  echo <> "" ->
  write command check_ack self =
    (Raise (ValueError (echo_message command echo)),
     Adapter t2 (Some command) (trace self ++ [Write command; ReadLine])).
Proof.
  intros Hw Hr Hne. rewrite (write_echo _ _ _ _ _ _ Hw Hr).
  by rewrite (eqb_not _ _ Hne).
Qed.

Lemma write_no_ack (command : string) (self : adapter T) t1 t2 :
  visa_write command (connection self) = (Done tt, t1) ->
  visa_read t1 = (Done "", t2) ->
  write command false self =
    (Ok tt, Adapter t2 (Some command) (trace self ++ [Write command; ReadLine])).
Proof. intros Hw Hr. by rewrite (write_echo _ _ _ _ _ _ Hw Hr). Qed.

Lemma write_ack (command ack : string) (self : adapter T) t1 t2 t3 :
  visa_write command (connection self) = (Done tt, t1) ->
  visa_read t1 = (Done "", t2) ->
  visa_read t2 = (Done ack, t3) ->
  write command true self =
    check_acknowledgement ack
      (Adapter t3 (Some command) (trace self ++ [Write command; ReadLine; ReadLine])).
Proof.
  intros Hw Hr Ha. rewrite (write_echo _ _ _ _ _ _ Hw Hr). simpl.
  unfold bind, super_read, on_connection. simpl. rewrite Ha. simpl.
  by rewrite <- app_assoc.
Qed.

(** *** [sleep] and [ask] *)

Lemma sleep_ok (d : Q) (self : adapter T) :
  (0 <= d)%Q ->
  sleep d self =
    (Ok tt, Adapter (connection self) (lastcommand self) (trace self ++ [Sleep d])).
Proof. intros Hd. unfold sleep. by rewrite (proj2 (Qle_bool_iff 0 d) Hd). Qed.


Lemma ask_sequence (command : string) (self : adapter T) :
  ask command self =
    match write command false self with
    | (Ok _, sent) =>
        match sleep (visa_query_delay (connection sent)) sent with
        | (Ok _, slept) => read slept
        | (Raise e, failed) => (Raise e, failed)
        end
    | (Raise e, failed) => (Raise e, failed)
    end.
Proof.
  unfold ask, bind at 1. destruct (write command false self) as [[[]|e] sent]; [| reflexivity].
  unfold bind at 1, query_delay. unfold bind at 1.
  by destruct (sleep (visa_query_delay (connection sent)) sent) as [[[]|e] slept].
Qed.

Lemma ask_ok (command data : string) (self : adapter T) t1 t2 t3 t4 :
  visa_write command (connection self) = (Done tt, t1) ->
  visa_read t1 = (Done "", t2) ->
  (0 <= visa_query_delay t2)%Q ->
  visa_read t2 = (Done data, t3) ->
  visa_read t3 = (Done "[OK]", t4) ->
  ask command self =
    (Ok data,
     Adapter t4 (Some command)
       (trace self ++
          [Write command; ReadLine; Sleep (visa_query_delay t2); ReadLine; ReadLine])).
Proof.
  intros Hw He Hq Hd Ha. rewrite ask_sequence, (write_no_ack _ _ _ _ Hw He). simpl.
  rewrite (sleep_ok _ _ Hq). simpl.
  rewrite (read_ok _ data t3 t4) by done. simpl.
  by rewrite <- !app_assoc.
Qed.

(** *** What every run keeps *)

Ltac run_methods :=
  unfold ask, write, read, check_acknowledgement, bind, set_lastcommand,
    get_lastcommand, super_write, super_read, flush, sleep, query_delay,
    on_connection, raise, ret, lift in *;
  simpl in *;
  repeat (case_match; simpl in *; simplify_eq).

Lemma write_sets_lastcommand (command : string) (check_ack : bool) (self : adapter T) :
  lastcommand (snd (write command check_ack self)) = Some command.
Proof. run_methods; done. Qed.

Lemma ask_sets_lastcommand (command : string) (self : adapter T) :
  lastcommand (snd (ask command self)) = Some command.
Proof. run_methods; done. Qed.

Lemma read_keeps_lastcommand (self : adapter T) :
  lastcommand (snd (read self)) = lastcommand self.
Proof. run_methods; done. Qed.

Lemma write_error_names_command (command msg : string) (check_ack : bool)
    (self self' : adapter T) :
  write command check_ack self = (Raise (ValueError msg), self') ->
  occurs_in command msg.
Proof.
  intros Hw. run_methods;
    (apply echo_message_command || apply ack_message_command).
Qed.

Lemma ask_error_names_command (command msg : string) (self self' : adapter T) :
  ask command self = (Raise (ValueError msg), self') ->
  occurs_in command msg \/ msg = sleep_message.
Proof.
  intros Hw. run_methods;
    first [ by right
          | left; (apply echo_message_command || apply ack_message_command) ].
Qed.

(** *** Traces *)

Lemma count_app (kind : call -> bool) (a b : list call) :
  count kind (a ++ b) = count kind a + count kind b.
Proof. unfold count. by rewrite filter_app, length_app. Qed.

Lemma check_trace (reply : string) (self : adapter T) :
  trace (snd (check_acknowledgement reply self)) =
    (trace self ++ (if String.eqb reply "[OK]" then [] else [Flush]))%list /\
  connection (snd (check_acknowledgement reply self)) =
    (if String.eqb reply "[OK]" then connection self
     else snd (visa_flush (connection self))).
Proof.
  unfold check_acknowledgement. destruct (String.eqb reply "[OK]"); simpl.
  - by rewrite app_nil_r.
  - run_methods; done.
Qed.

Lemma check_bad_raises (reply : string) (self : adapter T) :
  reply <> "[OK]" -> exists e, fst (check_acknowledgement reply self) = Raise e.
Proof.
  intros Hne. unfold check_acknowledgement. rewrite (eqb_not _ _ Hne).
  run_methods; eauto.
Qed.

Lemma read_bad_trace (self : adapter T) data ack t1 t2 :
  visa_read (connection self) = (Done data, t1) ->
  visa_read t1 = (Done ack, t2) ->
  ack <> "[OK]" ->
  (exists e, fst (read self) = Raise e) /\
  trace (snd (read self)) = (trace self ++ [ReadLine; ReadLine; Flush])%list.
Proof.
  intros H1 H2 Hne. unfold read.
  rewrite (bind_ok _ _ _ data (Adapter t1 (lastcommand self) (trace self ++ [ReadLine])))
    by (unfold super_read; by rewrite (on_connection_run _ _ _ _ _ H1)).
  rewrite (bind_ok _ _ _ ack
             (Adapter t2 (lastcommand self) ((trace self ++ [ReadLine]) ++ [ReadLine])))
    by (unfold super_read; by rewrite (on_connection_run _ _ _ (Done ack) t2)).
  set (st := Adapter t2 _ _).
  destruct (check_bad_raises ack st Hne) as [e He].
  pose proof (proj1 (check_trace ack st)) as Ht.
  apply String.eqb_neq in Hne. rewrite Hne in Ht.
  unfold bind. destruct (check_acknowledgement ack st) as [[[]|e'] st'];
    simpl in *; [discriminate |].
  split; [eauto |]. subst st. simpl in Ht. by rewrite Ht, <- !app_assoc.
Qed.

Lemma write_error_message (command msg : string) (check_ack : bool)
    (self failed : adapter T) :
  write command check_ack self = (Raise (ValueError msg), failed) ->
  exists reply, msg = echo_message command reply \/ msg = ack_message command reply.
Proof. intros Hw. run_methods; eauto. Qed.

Lemma ask_error_message (command msg : string) (self failed : adapter T) :
  ask command self = (Raise (ValueError msg), failed) ->
  (exists reply, msg = echo_message command reply \/ msg = ack_message command reply) \/
  msg = sleep_message.
Proof. intros Hw. run_methods; eauto. Qed.

Lemma write_reads (command echo ack : string) (check_ack : bool) (self : adapter T)
    t1 t2 t3 :
  visa_write command (connection self) = (Done tt, t1) ->
  visa_read t1 = (Done echo, t2) ->
  visa_read t2 = (Done ack, t3) ->
  exists calls,
    trace (snd (write command check_ack self)) = (trace self ++ Write command :: calls)%list /\
    count is_write calls = 0 /\
    count is_read calls = (if check_ack && String.eqb echo "" then 2 else 1).
Proof.
  intros Hw He Ha. rewrite (write_echo _ _ _ _ _ _ Hw He).
  destruct (String.eqb echo "") eqn:Hecho; simpl.
  - destruct check_ack; simpl.
    + unfold bind at 1, super_read.
      rewrite (on_connection_run ReadLine visa_read (Adapter t2 _ _) (Done ack) t3 Ha).
      simpl.
      match goal with |- context [check_acknowledgement ack ?s] => set (st := s) end.
      pose proof (proj1 (check_trace ack st)) as Ht. rewrite Ht. subst st. simpl.
      rewrite <- !app_assoc. simpl.
      eexists. split; [reflexivity |]. by destruct (String.eqb ack "[OK]").
    + by exists [ReadLine].
  - rewrite andb_false_r. by exists [ReadLine].
Qed.

(** *** The constructor *)

Lemma setdefault_lookup (key : string) (v : kwvalue) (kwargs : gmap string kwvalue) :
  setdefault key v kwargs !! key = Some (default v (kwargs !! key)).
Proof.
  unfold setdefault. destruct (kwargs !! key) eqn:E; simpl; [done |].
  by rewrite lookup_insert_eq.
Qed.

Lemma setdefault_lookup_ne (key key' : string) (v : kwvalue)
    (kwargs : gmap string kwvalue) :
  key <> key' -> setdefault key v kwargs !! key' = kwargs !! key'.
Proof.
  intros Hne. unfold setdefault. destruct (kwargs !! key); [done |].
  by rewrite lookup_insert_ne.
Qed.

Lemma init_trace (baud_rate : Z) (self self' : adapter T) :
  init baud_rate self = (Ok tt, self') ->
  lastcommand self' = Some "talk usual" /\
  exists d,
    trace self' =
      (trace self ++
        [SetBaud baud_rate; Write "echo off"; Write "prom off"; Sleep settle_delay;
         Flush; Write "talk usual"; ReadLine; Sleep d; ReadLine; ReadLine])%list.
Proof.
  intros Hi. unfold init, set_baud_rate in Hi. run_methods.
  split; [done |]. eexists. by rewrite <- !app_assoc.
Qed.

Lemma construction_trace (port : string) (baud_rate : Z)
    (kwargs : gmap string kwvalue) (self : adapter T) :
  TopticaAdapter port baud_rate kwargs = Ok self ->
  lastcommand self = Some "talk usual" /\
  exists d,
    trace self =
      [Open port (init_kwargs kwargs); SetBaud baud_rate; Write "echo off";
       Write "prom off"; Sleep settle_delay; Flush; Write "talk usual"; ReadLine;
       Sleep d; ReadLine; ReadLine].
Proof.
  unfold TopticaAdapter. destruct (visa_open port (init_kwargs kwargs)) as [t|]; [| done].
  destruct (init baud_rate _) as [[[]|e] self'] eqn:Hi; [| done].
  intros [= <-]. by apply init_trace in Hi.
Qed.

End Generic.

End ProtocolFacts.

(** ** Part 5: the statements of the specification *)

Module Spec.
Import Pattern Protocol PatternFacts ProtocolFacts.

(** *** Value extraction *)

Lemma whole_token_matches (s v : string) : whole_token_at s v -> matches_at s v.
Proof.
  intros (name & ws1 & ws2 & post & Hs & Hn & Hw1 & Hw2 & Hv & Hpost).
  exists name, ws1, ws2, post. repeat split; try done; try apply Hn; try apply Hw1;
    try apply Hw2; try apply Hv.
  destruct Hpost as [-> | Hpost]; [reflexivity |].
  by apply (starts_other is_space is_word), Hpost; apply space_not_word.
Qed.

(** C1, amended.  [extract_value] is a function of the reply alone.  When the
    leftmost place of the reply that reads [name = value] (tokens of word
    characters, at least one blank on each side of the equals sign) has a
    value token that ends with the reply or before a blank, that token is
    returned; a reply that reads so at no place is returned unchanged.
    Nothing is said of a value token that is followed at once by another
    character, as the [12] of [12.3] is. *)
Theorem extract_value_leftmost_token (r : string) :
  (forall pre s v,
      r = pre +:+ s ->
      whole_token_at s v ->
      (forall pre' s' v',
          r = pre' +:+ s' -> String.length pre' < String.length pre ->
          ~ matches_at s' v') ->
      extract_value r = v) /\
  ((forall pre s v, r = pre +:+ s -> ~ matches_at s v) -> extract_value r = r).
Proof.
  split.
  - intros pre s v Hr Hv. apply (extract_value_match r pre s v Hr).
    by apply whole_token_matches.
  - apply extract_value_no_match.
Qed.

Lemma extract_value_leftmost_token_witness :
  extract_value "power = 12 mW" = "12" /\
  extract_value "no pattern here" = "no pattern here".
Proof.
  split.
  - apply (proj1 (extract_value_leftmost_token "power = 12 mW") "" "power = 12 mW" "12").
    + reflexivity.
    + exists "power", " ", " ", " mW".
      repeat split; try discriminate; try reflexivity. by right.
    + intros pre' s' v' _ Hlen. simpl in Hlen. lia.
  - apply (proj2 (extract_value_leftmost_token "no pattern here")).
    apply no_match_anywhere. reflexivity.
Defined.

(** C1 as first stated fails at two replies: the blanks around the equals
    sign are not optional, so that [name=value] with none is returned whole;
    and on the claim's own example the value returned stops at the decimal
    point, short of the numerical value the docstring promises. *)
Lemma extract_value_claim_fails :
  extract_value "power = 12.3 mW" <> "12.3" /\ extract_value "power=12" <> "12".
Proof. split; vm_compute; discriminate. Qed.

Example extract_value_decimal : extract_value "power = 12.3 mW" = "12".
Proof. reflexivity. Qed.

Example extract_value_needs_blanks : extract_value "power=12" = "power=12".
Proof. reflexivity. Qed.

Example extract_value_padded : extract_value "PIC  = 000011 uW " = "000011".
Proof. reflexivity. Qed.

Example extract_value_first_of_two : extract_value "a = b = 1" = "b".
Proof. reflexivity. Qed.

(** Word characters and blanks beyond ASCII: the micro sign (181) belongs to
    the value token, the no-break space (160) separates like a blank. *)
Example extract_value_micro :
  extract_value ("pow = 12" +:+ String "181"%char "W") = "12" +:+ String "181"%char "W".
Proof. reflexivity. Qed.

Example extract_value_no_break_space :
  extract_value ("a" +:+ String "160"%char ("=" +:+ String "160"%char "b")) = "b".
Proof. reflexivity. Qed.

(** C8.  Extracting twice is extracting once, for every reply whose extracted
    value holds no further [name = value] pattern. *)
Theorem extract_value_twice (r : string) :
  (forall pre s v, extract_value r = pre +:+ s -> ~ matches_at s v) ->
  extract_value (extract_value r) = extract_value r.
Proof. apply extract_value_no_match. Qed.

Lemma extract_value_twice_witness :
  extract_value (extract_value "PIC  = 000011 uW ") = extract_value "PIC  = 000011 uW ".
Proof.
  apply extract_value_twice. apply no_match_anywhere. reflexivity.
Defined.

(** *** The exchange *)

Section Exchange.
Context {T : Type} {LT : LineTransport T}.

Ltac run_exchange :=
  unfold TopticaAdapter, init, ask, write, read, check_acknowledgement, bind,
    set_lastcommand, get_lastcommand, set_baud_rate, super_write, super_read,
    flush, sleep, query_delay, on_connection, raise, ret, lift in *;
  simpl in *;
  repeat (case_match; simpl in *; simplify_eq);
  repeat match goal with u : unit |- _ => destruct u end;
  repeat match goal with
  | H : negb (String.eqb _ _) = false |- _ =>
      apply negb_false_iff, String.eqb_eq in H; subst
  | H : negb (String.eqb _ _) = true |- _ =>
      apply negb_true_iff, String.eqb_neq in H
  | H : Qle_bool 0 _ = true |- _ => apply Qle_bool_iff in H
  end.

(** What a finished construction has been through. *)
Lemma construction_inv (port : string) (baud_rate : Z)
    (kwargs : gmap string kwvalue) (self : adapter T) :
  TopticaAdapter port baud_rate kwargs = Ok self ->
  exists t0 t1 t2 t3 t4 t5 t6 t7 t8 data,
    visa_open port (init_kwargs kwargs) = Done t0 /\
    visa_set_baud_rate baud_rate t0 = (Done tt, t1) /\
    visa_write "echo off" t1 = (Done tt, t2) /\
    visa_write "prom off" t2 = (Done tt, t3) /\
    visa_flush t3 = (Done tt, t4) /\
    visa_write "talk usual" t4 = (Done tt, t5) /\
    visa_read t5 = (Done "", t6) /\
    (0 <= visa_query_delay t6)%Q /\
    visa_read t6 = (Done data, t7) /\
    visa_read t7 = (Done "[OK]", t8) /\
    self =
      Adapter t8 (Some "talk usual")
        [Open port (init_kwargs kwargs); SetBaud baud_rate; Write "echo off";
         Write "prom off"; Sleep 0.04%Q; Flush; Write "talk usual"; ReadLine;
         Sleep (visa_query_delay t6); ReadLine; ReadLine].
Proof.
  intros Hc. run_exchange. eexists _, _, _, _, _, _, _, _, _, _.
  repeat split; done.
Qed.

Lemma construction_ok (port : string) (baud_rate : Z)
    (kwargs : gmap string kwvalue) t0 t1 t2 t3 t4 t5 t6 t7 t8 data :
  visa_open port (init_kwargs kwargs) = Done t0 ->
  visa_set_baud_rate baud_rate t0 = (Done tt, t1) ->
  visa_write "echo off" t1 = (Done tt, t2) ->
  visa_write "prom off" t2 = (Done tt, t3) ->
  visa_flush t3 = (Done tt, t4) ->
  visa_write "talk usual" t4 = (Done tt, t5) ->
  visa_read t5 = (Done "", t6) ->
  (0 <= visa_query_delay t6)%Q ->
  visa_read t6 = (Done data, t7) ->
  visa_read t7 = (Done "[OK]", t8) ->
  TopticaAdapter port baud_rate kwargs =
    Ok (Adapter t8 (Some "talk usual")
          [Open port (init_kwargs kwargs); SetBaud baud_rate; Write "echo off";
           Write "prom off"; Sleep 0.04%Q; Flush; Write "talk usual"; ReadLine;
           Sleep (visa_query_delay t6); ReadLine; ReadLine]).
Proof.
  intros H0 H1 H2 H3 H4 H5 H6 Hq H7 H8.
  unfold TopticaAdapter, init, set_baud_rate, super_write, flush,
    bind at 1 2 3 4 5, on_connection.
  rewrite H0. simpl. rewrite H1. simpl. rewrite H2. simpl. rewrite H3. simpl.
  rewrite H4. simpl.
  unfold bind at 1.
  erewrite (ask_ok "talk usual" data) by (simpl; eassumption).
  reflexivity.
Qed.


(** C3.  [check_acknowledgement] returns and changes nothing on ["[OK]"]; on
    any other reply it makes one flush call and ends in an exception, which,
    the flush having returned, is the [ValueError] that carries the last
    command and the reply; the flush comes first, so that a failing flush is
    what is raised instead. *)
Theorem check_acknowledgement_contract (reply : string) (self : adapter T) :
  (reply = "[OK]" -> check_acknowledgement reply self = (Ok tt, self)) /\
  (reply <> "[OK]" ->
     (exists e, fst (check_acknowledgement reply self) = Raise e) /\
     trace (snd (check_acknowledgement reply self)) = (trace self ++ [Flush])%list /\
     connection (snd (check_acknowledgement reply self)) =
       snd (visa_flush (connection self)) /\
     (forall command t,
         lastcommand self = Some command ->
         visa_flush (connection self) = (Done tt, t) ->
         check_acknowledgement reply self =
           (Raise (ValueError (ack_message command reply)),
            Adapter t (Some command) (trace self ++ [Flush])) /\
         occurs_in command (ack_message command reply) /\
         occurs_in reply (ack_message command reply)) /\
     (forall info t,
         visa_flush (connection self) = (Failed info, t) ->
         fst (check_acknowledgement reply self) = Raise (TransportError info))).
Proof.
  split.
  - intros ->. apply check_ok.
  - intros Hne. pose proof (check_trace reply self) as [Ht Hc].
    rewrite (proj2 (String.eqb_neq _ _) Hne) in Ht, Hc.
    repeat split; try done.
    + by apply check_bad_raises.
    + by apply check_bad.
    + apply ack_message_command.
    + apply ack_message_reply.
    + intros info t Hf. by rewrite (check_flush_fails _ _ _ _ Hne Hf).
Qed.

(** C4.  [read] takes one data line and then one more line from the
    transport.  When the second line is ["[OK]"] it returns the data line;
    otherwise it ends in an exception after exactly one flush, and that
    exception is the acknowledgement [ValueError]. *)
Theorem read_contract (self : adapter T) (data ack : string) t1 t2 :
  visa_read (connection self) = (Done data, t1) ->
  visa_read t1 = (Done ack, t2) ->
  (ack = "[OK]" ->
     read self =
       (Ok data, Adapter t2 (lastcommand self) (trace self ++ [ReadLine; ReadLine]))) /\
  (ack <> "[OK]" ->
     (exists e, fst (read self) = Raise e) /\
     trace (snd (read self)) = (trace self ++ [ReadLine; ReadLine; Flush])%list /\
     count is_flush (trace (snd (read self))) = count is_flush (trace self) + 1 /\
     forall command t3,
       lastcommand self = Some command ->
       visa_flush t2 = (Done tt, t3) ->
       read self =
         (Raise (ValueError (ack_message command ack)),
          Adapter t3 (Some command) (trace self ++ [ReadLine; ReadLine; Flush]))).
Proof.
  intros H1 H2. split.
  - intros ->. by apply read_ok with t1.
  - intros Hne. destruct (read_bad_trace self data ack t1 t2 H1 H2 Hne) as [He Ht].
    repeat split; [done | done | by rewrite Ht, count_app |].
    intros command t3 Hlast Hf. by apply read_bad with data t1 t2.
Qed.

(** C5.  Once the command is sent, [write] reads one line; when that line is
    not empty, [write] ends in the [ValueError] that holds the command and the
    line, with no flush on the way. *)
Theorem write_unexpected_echo (command echo : string) (check_ack : bool)
    (self : adapter T) t1 t2 :
  visa_write command (connection self) = (Done tt, t1) ->
  visa_read t1 = (Done echo, t2) ->
  echo <> "" ->
  write command check_ack self =
    (Raise (ValueError (echo_message command echo)),
     Adapter t2 (Some command) (trace self ++ [Write command; ReadLine])) /\
  occurs_in command (echo_message command echo) /\
  occurs_in echo (echo_message command echo) /\
  count is_flush (trace (snd (write command check_ack self))) = count is_flush (trace self).
Proof.
  intros Hw Hr Hne. rewrite (write_echo_bad _ _ _ _ _ _ Hw Hr Hne).
  repeat split.
  - apply echo_message_command.
  - apply echo_message_reply.
  - simpl. rewrite count_app. unfold count at 2. simpl. lia.
Qed.

(** C6.  A [write] whose command the transport accepts makes one write call
    and reads one line for the echo, plus one line for the acknowledgement
    when [check_ack] is set and the echo was empty.  Without [check_ack] it is
    one line whatever the echo, whether or not a second line is there; with
    [check_ack], an empty echo and ["[OK]"] it is two lines and no error. *)
Theorem write_lines_consumed (command echo : string) (self : adapter T) t1 t2 :
  visa_write command (connection self) = (Done tt, t1) ->
  visa_read t1 = (Done echo, t2) ->
  (exists r,
      write command false self =
        (r, Adapter t2 (Some command) (trace self ++ [Write command; ReadLine])) /\
      (r = Ok tt <-> echo = "")) /\
  (forall t3,
      echo = "" -> visa_read t2 = (Done "[OK]", t3) ->
      write command true self =
        (Ok tt,
         Adapter t3 (Some command) (trace self ++ [Write command; ReadLine; ReadLine]))) /\
  (forall check_ack,
      check_ack && String.eqb echo "" = false ->
      exists calls,
        trace (snd (write command check_ack self)) =
          (trace self ++ Write command :: calls)%list /\
        count is_write calls = 0 /\ count is_read calls = 1) /\
  (forall ack t3,
      echo = "" -> visa_read t2 = (Done ack, t3) ->
      exists calls,
        trace (snd (write command true self)) =
          (trace self ++ Write command :: calls)%list /\
        count is_write calls = 0 /\ count is_read calls = 2).
Proof.
  intros Hw He. repeat split.
  - rewrite (write_echo _ _ _ _ _ _ Hw He).
    destruct (String.eqb_spec echo "") as [->|Hne]; simpl.
    + by eexists.
    + eexists. split; [reflexivity |]. by split.
  - intros t3 -> Ha. rewrite (write_ack _ _ _ _ _ _ Hw He Ha). apply check_ok.
  - intros check_ack Hone. rewrite (write_echo _ _ _ _ _ _ Hw He).
    destruct (String.eqb echo "") eqn:Hecho; simpl.
    + rewrite andb_true_r in Hone. subst check_ack. by exists [ReadLine].
    + by exists [ReadLine].
  - intros ack t3 -> Ha.
    destruct (write_reads command "" ack true self t1 t2 t3 Hw He Ha)
      as (calls & Ht & Hwr & Hrd).
    by exists calls.
Qed.

(** C7.  A finished construction has made, in this order: the three keyword
    defaults (hook [extract_value], both terminators CR LF, each only where
    the caller gave none), the opening of the transport with them, the
    assignment of the baud rate on the connection just opened, the base
    writes of [echo off] and [prom off] with no line read for them, the
    settle sleep of 0.04 s, the flush, and the full [ask] of [talk usual];
    each step works on the connection the step before left, and only the
    adapter comes out of it. *)
Theorem construction_sequence (port : string) (baud_rate : Z)
    (kwargs : gmap string kwvalue) (self : adapter T) :
  TopticaAdapter port baud_rate kwargs = Ok self ->
  init_kwargs kwargs !! "preprocess_reply" =
    Some (default (KCallable extract_value) (kwargs !! "preprocess_reply")) /\
  init_kwargs kwargs !! "read_termination" =
    Some (default (KStr (String "013"%char (String "010"%char ""))) (kwargs !! "read_termination")) /\
  init_kwargs kwargs !! "write_termination" =
    Some (default (KStr (String "013"%char (String "010"%char ""))) (kwargs !! "write_termination")) /\
  exists t0 t1 t2 t3 t4 t5 t6 t7 t8 data,
    visa_open port (init_kwargs kwargs) = Done t0 /\
    visa_set_baud_rate baud_rate t0 = (Done tt, t1) /\
    visa_write "echo off" t1 = (Done tt, t2) /\
    visa_write "prom off" t2 = (Done tt, t3) /\
    visa_flush t3 = (Done tt, t4) /\
    visa_write "talk usual" t4 = (Done tt, t5) /\
    visa_read t5 = (Done "", t6) /\
    (0 <= visa_query_delay t6)%Q /\
    visa_read t6 = (Done data, t7) /\
    visa_read t7 = (Done "[OK]", t8) /\
    self =
      Adapter t8 (Some "talk usual")
        [Open port (init_kwargs kwargs); SetBaud baud_rate; Write "echo off";
         Write "prom off"; Sleep 0.04%Q; Flush; Write "talk usual"; ReadLine;
         Sleep (visa_query_delay t6); ReadLine; ReadLine].
Proof.
  intros Hc. split; [| split; [| split]].
  - unfold init_kwargs. rewrite !setdefault_lookup_ne by done. apply setdefault_lookup.
  - unfold init_kwargs. rewrite setdefault_lookup_ne by done. rewrite setdefault_lookup.
    by rewrite setdefault_lookup_ne.
  - unfold init_kwargs. rewrite setdefault_lookup. by rewrite !setdefault_lookup_ne.
  - by apply construction_inv.
Qed.

(** C9.  [write] has set [lastcommand] to its command before the first call
    on the transport, and nothing unsets it: after any [write] or [ask],
    failed or not, [lastcommand] is that command, and the message of the
    protocol [ValueError] a failed [write] or [ask] ends in holds that
    command.  The one other [ValueError] of [ask] is that of a sleep of a
    negative query delay. *)
Theorem lastcommand_after_failure (command : string) (check_ack : bool)
    (self : adapter T) :
  lastcommand (snd (write command check_ack self)) = Some command /\
  lastcommand (snd (ask command self)) = Some command /\
  (forall info t,
      visa_write command (connection self) = (Failed info, t) ->
      write command check_ack self =
        (Raise (TransportError info),
         Adapter t (Some command) (trace self ++ [Write command]))) /\
  (forall msg failed,
      write command check_ack self = (Raise (ValueError msg), failed) ->
      lastcommand failed = Some command /\
      occurs_in command msg /\
      exists reply, msg = echo_message command reply \/ msg = ack_message command reply) /\
  (forall msg failed,
      ask command self = (Raise (ValueError msg), failed) ->
      lastcommand failed = Some command /\
      (occurs_in command msg /\
       (exists reply,
           msg = echo_message command reply \/ msg = ack_message command reply) \/
       msg = "sleep length must be non-negative")).
Proof.
  split; [apply write_sets_lastcommand |].
  split; [apply ask_sets_lastcommand |].
  split; [intros info t; apply write_send_fails |].
  split; intros msg failed Hf; split.
  - pose proof (write_sets_lastcommand command check_ack self) as Hl.
    by rewrite Hf in Hl.
  - split; [by apply write_error_names_command in Hf |].
    by apply write_error_message in Hf.
  - pose proof (ask_sets_lastcommand command self) as Hl. by rewrite Hf in Hl.
  - destruct (ask_error_message _ _ _ _ Hf) as [Hmsg | Hsleep]; [left | by right].
    split; [| exact Hmsg].
    destruct Hmsg as [reply [-> | ->]];
      [apply echo_message_command | apply ack_message_command].
Qed.

(** C10.  When the line after the data line is not ["[OK]"], [read] raises
    and the data line is gone: the exception is the same whatever the data
    line was, its message is made of the last command and the bad
    acknowledgement line, and the adapter's [lastcommand] is as before. *)
Theorem read_drops_data_line (self self' : adapter T) (data data' ack command : string)
    t1 t2 t3 t1' t2' t3' :
  lastcommand self = Some command ->
  lastcommand self' = Some command ->
  visa_read (connection self) = (Done data, t1) ->
  visa_read t1 = (Done ack, t2) ->
  visa_flush t2 = (Done tt, t3) ->
  visa_read (connection self') = (Done data', t1') ->
  visa_read t1' = (Done ack, t2') ->
  visa_flush t2' = (Done tt, t3') ->
  ack <> "[OK]" ->
  fst (read self) = Raise (ValueError (ack_message command ack)) /\
  fst (read self') = fst (read self) /\
  lastcommand (snd (read self)) = lastcommand self /\
  occurs_in ack (ack_message command ack).
Proof.
  intros Hl Hl' H1 H2 H3 H1' H2' H3' Hne.
  rewrite (read_bad self data ack command t1 t2 t3) by done.
  rewrite (read_bad self' data' ack command t1' t2' t3') by done.
  repeat split; [by rewrite Hl | apply ack_message_reply].
Qed.

End Exchange.

(** *** The statements on scripted exchanges *)



Lemma check_acknowledgement_contract_witness :
  check_acknowledgement (LT := bench) "[OK]" (holding ["next"] (Some "sh pow")) =
    (Ok tt, holding ["next"] (Some "sh pow")) /\
  fst (check_acknowledgement (LT := bench) "[ERR] foo" (holding ["stale"] (Some "sh pow"))) =
    Raise (ValueError "TopticaAdapter: Error after command 'sh pow' with message '[ERR] foo'") /\
  trace (snd (check_acknowledgement (LT := bench) "[ERR] foo"
                (holding ["stale"] (Some "sh pow")))) = [Flush].
Proof.
  split.
  - apply (proj1 (check_acknowledgement_contract (LT := bench) "[OK]" _)). reflexivity.
  - destruct (proj2 (check_acknowledgement_contract (LT := bench) "[ERR] foo"
                       (holding ["stale"] (Some "sh pow"))))
      as (_ & Htrace & _ & Hraised & _); [discriminate |].
    split; [| exact Htrace].
    destruct (Hraised "sh pow" _ eq_refl eq_refl) as [-> _]. reflexivity.
Defined.

Lemma read_contract_witness :
  fst (read (LT := bench) (holding ["x = 1"; "[OK]"] (Some "sh x"))) = Ok "x = 1" /\
  fst (read (LT := bench) (holding ["x = 1"; "[ERR]"] (Some "sh x"))) =
    Raise (ValueError "TopticaAdapter: Error after command 'sh x' with message '[ERR]'") /\
  count is_flush (trace (snd (read (LT := bench) (holding ["x = 1"; "[ERR]"] (Some "sh x"))))) = 1.
Proof.
  split.
  - destruct (read_contract (LT := bench) (holding ["x = 1"; "[OK]"] (Some "sh x"))
                "x = 1" "[OK]" _ _ eq_refl eq_refl) as [-> _]; reflexivity.
  - destruct (read_contract (LT := bench) (holding ["x = 1"; "[ERR]"] (Some "sh x"))
                "x = 1" "[ERR]" _ _ eq_refl eq_refl) as [_ Hbad].
    destruct Hbad as (_ & _ & Hflush & Hraised); [discriminate |].
    split; [| exact Hflush].
    rewrite (Hraised "sh x" _ eq_refl eq_refl). reflexivity.
Defined.

Lemma write_unexpected_echo_witness :
  fst (write (LT := bench) "sh pow" true (holding ["garbage"; "[OK]"] None)) =
    Raise (ValueError
             "TopticaAdapter.write: Error after command 'sh pow' with message 'garbage'") /\
  count is_flush (trace (snd (write (LT := bench) "sh pow" true
                                (holding ["garbage"; "[OK]"] None)))) = 0.
Proof.
  destruct (write_unexpected_echo (LT := bench) "sh pow" "garbage" true
              (holding ["garbage"; "[OK]"] None) _ _ eq_refl eq_refl)
    as (Hraised & _ & _ & Hflush); [discriminate |].
  split; [| exact Hflush]. rewrite Hraised. reflexivity.
Defined.

Lemma write_lines_consumed_witness :
  write (LT := bench) "echo off" false (holding [""] None) =
    (Ok tt,
     Adapter (Scripted 115200 CRLF 0.1%Q ["echo off" +:+ String "013"%char (String "010"%char "")] [] [])
       (Some "echo off") [Write "echo off"; ReadLine]) /\
  inbuf (connection (snd (write (LT := bench) "echo off" false
                            (holding ["unexpected"; "[OK]"; "next"] None)))) =
    ["[OK]"; "next"] /\
  write (LT := bench) "set power 5" true (holding [""; "[OK]"; "next"] None) =
    (Ok tt,
     Adapter (Scripted 115200 CRLF 0.1%Q ["set power 5" +:+ String "013"%char (String "010"%char "")] ["next"] [])
       (Some "set power 5") [Write "set power 5"; ReadLine; ReadLine]).
Proof.
  split; [| split].
  - destruct (write_lines_consumed (LT := bench) "echo off" "" (holding [""] None) _ _
                eq_refl eq_refl) as ((r & Hrun & Hr) & _).
    rewrite Hrun. by rewrite (proj2 Hr eq_refl).
  - destruct (write_lines_consumed (LT := bench) "echo off" "unexpected"
                (holding ["unexpected"; "[OK]"; "next"] None) _ _
                eq_refl eq_refl) as ((r & -> & _) & _). reflexivity.
  - destruct (write_lines_consumed (LT := bench) "set power 5" ""
                (holding [""; "[OK]"; "next"] None) _ _
                eq_refl eq_refl) as (_ & Hack & _).
    by rewrite (Hack _ eq_refl eq_refl).
Defined.

Lemma construction_sequence_witness :
  exists self,
    TopticaAdapter (LT := console) "ASRL1::INSTR" 115200 ∅ = Ok self /\
    baud_rate (connection self) = 115200%Z /\
    wire (connection self) =
      ["echo off" +:+ String "013"%char (String "010"%char ""); "prom off" +:+ String "013"%char (String "010"%char ""); "talk usual" +:+ String "013"%char (String "010"%char "")] /\
    inbuf (connection self) = [] /\
    init_kwargs ∅ !! "write_termination" = Some (KStr (String "013"%char (String "010"%char ""))) /\
    exists d,
      trace self =
        [Open "ASRL1::INSTR" (init_kwargs ∅); SetBaud 115200; Write "echo off";
         Write "prom off"; Sleep 0.04%Q; Flush; Write "talk usual"; ReadLine;
         Sleep d; ReadLine; ReadLine].
Proof.
  pose (query := [""; "power = 12.3 mW"; "[OK]"]).
  pose (t0 := Scripted 9600 CRLF 0.1%Q [] ["iBEAM console"]
                [ [""; "[OK]"]; [""; "[OK]"]; [""; "mode = usual"; "[OK]"]; query ]).
  pose (t1 := snd (scripted_set_baud_rate 115200 t0)).
  pose (t2 := snd (scripted_write "echo off" t1)).
  pose (t3 := snd (scripted_write "prom off" t2)).
  pose (t4 := snd (scripted_flush t3)).
  pose (t5 := snd (scripted_write "talk usual" t4)).
  pose (t6 := snd (scripted_read t5)).
  pose (t7 := snd (scripted_read t6)).
  pose (t8 := snd (scripted_read t7)).
  pose proof (construction_ok (LT := console) "ASRL1::INSTR" 115200 ∅
                t0 t1 t2 t3 t4 t5 t6 t7 t8 "mode = usual"
                eq_refl eq_refl eq_refl eq_refl eq_refl eq_refl eq_refl
                ltac:(vm_compute; discriminate) eq_refl eq_refl) as Hready.
  eexists. split; [exact Hready |].
  destruct (construction_sequence (LT := console) "ASRL1::INSTR" 115200 ∅ _ Hready)
    as (_ & _ & Hterm & _).
  split; [reflexivity |]. split; [reflexivity |]. split; [reflexivity |].
  split; [exact Hterm |]. by eexists.
Defined.

Lemma lastcommand_after_failure_witness :
  lastcommand (snd (write (LT := bench) "set power 5" true
                      (holding [""; "[ERR] 17"] (Some "sh pow")))) =
    Some "set power 5" /\
  fst (write (LT := bench) "set power 5" true
         (holding [""; "[ERR] 17"] (Some "sh pow"))) =
    Raise (ValueError
             "TopticaAdapter: Error after command 'set power 5' with message '[ERR] 17'") /\
  occurs_in "set power 5"
    "TopticaAdapter: Error after command 'set power 5' with message '[ERR] 17'".
Proof.
  destruct (lastcommand_after_failure (LT := bench) "set power 5" true
              (holding [""; "[ERR] 17"] (Some "sh pow"))) as (Hlast & _ & _ & Hmsg & _).
  split; [exact Hlast |]. split; [reflexivity |].
  eapply (Hmsg _ _). reflexivity.
Defined.

Lemma read_drops_data_line_witness :
  fst (read (LT := bench) (holding ["y = 2"; "[ERR]"] (Some "sh x"))) =
  fst (read (LT := bench) (holding ["x = 1"; "[ERR]"] (Some "sh x"))).
Proof.
  eapply (read_drops_data_line (LT := bench)
            (holding ["x = 1"; "[ERR]"] (Some "sh x"))
            (holding ["y = 2"; "[ERR]"] (Some "sh x")) "x = 1" "y = 2" "[ERR]" "sh x");
    (reflexivity || discriminate).
Defined.

End Spec.

(** ** Part 6: further properties of the code *)

Module Extra.
Import Pattern Protocol PatternFacts ProtocolFacts.

(** *** [extract_value] *)

(** The result is the reply or the group of a match found in it. *)
Lemma extract_value_cases (r : string) :
  extract_value r = r \/
  exists pre name ws1 ws2 post,
    r = pre +:+ name +:+ ws1 +:+ "=" +:+ ws2 +:+ extract_value r +:+ post /\
    run is_word name /\ run is_space ws1 /\ run is_space ws2 /\
    run is_word (extract_value r).
Proof.
  unfold extract_value. destruct (_reg_value r) as [v|] eqn:Hr; [right | by left].
  apply reg_value_some in Hr as (pre & s & -> & Hm & _).
  apply match_here_iff in Hm as (name & ws1 & ws2 & post & -> & ? & ? & ? & ? & _).
  by exists pre, name, ws1, ws2, post.
Qed.

Lemma run_length p (s : string) : run p s -> 1 <= String.length s.
Proof. intros [Hne _]. destruct s; [done | simpl; lia]. Qed.

(** X1.  [extract_value] invents no text: what it returns occurs in the reply
    and is no longer than the reply; it is the reply itself or a non-empty
    run of word characters, and in the second case the reply is at least four
    characters longer (a name, a blank, the equals sign, a blank). *)
Theorem extract_value_part_of_reply (r : string) :
  occurs_in (extract_value r) r /\
  String.length (extract_value r) <= String.length r /\
  (extract_value r = r \/
   run is_word (extract_value r) /\
   String.length (extract_value r) + 4 <= String.length r).
Proof.
  destruct (extract_value_cases r) as [Hr | (pre & name & ws1 & ws2 & post & Hr & Hn & Hw1 & Hw2 & Hv)].
  - rewrite Hr. split; [| split; [lia | by left]].
    exists "", "". by rewrite app_empty_l, app_empty_r.
  - assert (String.length (extract_value r) + 4 <= String.length r) as Hlen.
    { rewrite Hr at 2. rewrite !str_app_length.
      apply run_length in Hn, Hw1, Hw2. simpl. lia. }
    split; [| split; [lia | by right]].
    exists (pre +:+ name +:+ ws1 +:+ "=" +:+ ws2), post.
    rewrite Hr at 1. by rewrite !str_app_assoc.
Qed.

(** X2.  Extracting is idempotent on every reply, with no condition: an
    extracted token is made of word characters, in which the pattern, which
    needs blanks and an equals sign, cannot match again. *)
Theorem extract_value_idempotent_everywhere (r : string) :
  extract_value (extract_value r) = extract_value r.
Proof.
  unfold extract_value at 1. by rewrite extracted_no_match.
Qed.

Lemma all_chars_weaken (p q : ascii -> bool) (s : string) :
  (forall c, p c = true -> q c = true) -> all_chars p s = true -> all_chars q s = true.
Proof.
  intros Hpq. induction s as [|c s IH]; simpl; [done |].
  intros [Hc Hs]%andb_prop. by rewrite (Hpq c Hc), IH.
Qed.

(** X3.  A reply is returned unchanged when it holds no equals sign, and also
    when it holds no white space. *)
Theorem extract_value_needs_equals_and_blank (r : string) :
  all_chars (fun c => negb (Ascii.eqb c "="%char)) r = true \/
  all_chars (fun c => negb (is_space c)) r = true ->
  extract_value r = r.
Proof.
  intros Hr. destruct (extract_value_cases r) as [Hu | (pre & name & ws1 & ws2 & post & He & _ & [Hne Hw1] & _)];
    [exact Hu | exfalso].
  rewrite He in Hr. rewrite !all_chars_app in Hr.
  destruct Hr as [Hr | Hr].
  - change (all_chars (fun c => negb (Ascii.eqb c "="%char)) "=") with false in Hr.
    by rewrite !andb_false_r, ?andb_false_l in Hr.
  - destruct ws1 as [|x ws1]; [done |]. simpl in Hw1, Hr.
    apply andb_prop in Hw1 as [Hx _]. rewrite Hx in Hr. simpl in Hr.
    by rewrite !andb_false_r, ?andb_false_l in Hr.
Qed.

Lemma extract_value_needs_equals_and_blank_witness :
  extract_value "[OK]" = "[OK]" /\ extract_value "power=12mW" = "power=12mW".
Proof.
  split.
  - apply extract_value_needs_equals_and_blank. left. reflexivity.
  - apply extract_value_needs_equals_and_blank. right. reflexivity.
Defined.

(** X4.  Preprocessing a line with [extract_value] changes neither of the two
    comparisons the protocol makes: the result is empty exactly for the empty
    line, and it is ["[OK]"] exactly for the line ["[OK]"]. *)
Theorem extract_value_keeps_protocol_lines (r : string) :
  (extract_value r = "" <-> r = "") /\
  (extract_value r = "[OK]" <-> r = "[OK]").
Proof.
  destruct (extract_value_cases r) as [Hu | (_ & _ & _ & _ & _ & _ & _ & _ & _ & [Hne Hv])].
  - by rewrite Hu.
  - split; split.
    + intros He. by destruct Hne.
    + intros ->. reflexivity.
    + intros He. rewrite He in Hv. discriminate.
    + intros ->. reflexivity.
Qed.

Lemma extract_value_keeps_protocol_lines_witness :
  extract_value "[OK]" = "[OK]" /\ extract_value "" = "".
Proof.
  split.
  - by apply (proj2 (extract_value_keeps_protocol_lines "[OK]")).
  - by apply (proj1 (extract_value_keeps_protocol_lines "")).
Defined.

(** *** The exchange *)

Ltac eqb_clean :=
  repeat match goal with
  | H : negb (String.eqb _ _) = false |- _ =>
      apply negb_false_iff, String.eqb_eq in H; subst
  | H : negb (String.eqb _ _) = true |- _ =>
      apply negb_true_iff, String.eqb_neq in H
  | H : Qle_bool 0 _ = true |- _ => apply Qle_bool_iff in H
  end.

Ltac run_all :=
  unfold TopticaAdapter, init, ask, write, read, check_acknowledgement, bind,
    set_lastcommand, get_lastcommand, set_baud_rate, super_write, super_read,
    flush, sleep, query_delay, on_connection, raise, ret, lift in *;
  simpl in *;
  repeat (case_match; simpl in *; simplify_eq);
  repeat match goal with u : unit |- _ => destruct u end.

Ltac not_in_calls :=
  let Hin := fresh "Hin" in
  intros Hin;
  repeat (apply elem_of_cons in Hin as [Hin | Hin]; [discriminate Hin |]);
  by apply elem_of_nil in Hin.

Section ExchangeExtra.
Context {T : Type} {LT : LineTransport T}.

(** X5.  [read] returns a line exactly when the transport delivered that line
    and then the line ["[OK]"]; two lines were read, nothing was flushed and
    [lastcommand] is as before. *)
Theorem read_returns_iff (self self' : adapter T) (data : string) :
  read self = (Ok data, self') <->
  exists t1 t2,
    visa_read (connection self) = (Done data, t1) /\
    visa_read t1 = (Done "[OK]", t2) /\
    self' = Adapter t2 (lastcommand self) (trace self ++ [ReadLine; ReadLine]).
Proof.
  split.
  - intros Hr. run_all. eqb_clean. eexists _, _. repeat split; [done.. |].
    by rewrite <- app_assoc.
  - intros (t1 & t2 & H1 & H2 & ->). by apply read_ok with t1.
Qed.

(** X6.  [write] returns exactly when the transport took the command, the
    echo line was empty and, with [check_ack], the next line was ["[OK]"];
    it then made the one write call and one or two reads, and no flush. *)
Theorem write_returns_iff (command : string) (check_ack : bool) (self self' : adapter T) :
  write command check_ack self = (Ok tt, self') <->
  exists t1 t2,
    visa_write command (connection self) = (Done tt, t1) /\
    visa_read t1 = (Done "", t2) /\
    if check_ack then
      exists t3,
        visa_read t2 = (Done "[OK]", t3) /\
        self' = Adapter t3 (Some command) (trace self ++ [Write command; ReadLine; ReadLine])
    else self' = Adapter t2 (Some command) (trace self ++ [Write command; ReadLine]).
Proof.
  split.
  - intros Hw. run_all; eqb_clean.
    + eexists _, _. repeat split; [done.. |].
      eexists. split; [done |]. by rewrite <- !app_assoc.
    + eexists _, _. repeat split; [done.. |]. by rewrite <- !app_assoc.
  - intros (t1 & t2 & Hw & He & Hk). destruct check_ack.
    + destruct Hk as (t3 & Ha & ->).
      rewrite (write_ack _ _ _ _ _ _ Hw He Ha). apply check_ok.
    + subst self'. by apply write_no_ack with t1.
Qed.


(** X8.  Whatever the transport does, the calls of one [write] are a
    non-empty initial part of: the write of the command, a read, a read, a
    flush (of the first two without [check_ack]).  So a [write] never sends
    twice, never reads more than two lines, and flushes only as its last
    act, in which case it raises. *)
Theorem write_call_discipline (command : string) (check_ack : bool) (self : adapter T) :
  exists calls,
    trace (snd (write command check_ack self)) = (trace self ++ calls)%list /\
    calls <> [] /\
    calls `prefix_of`
      (if check_ack then [Write command; ReadLine; ReadLine; Flush]
       else [Write command; ReadLine]) /\
    (Flush ∈ calls -> exists e, fst (write command check_ack self) = Raise e).
Proof.
  run_all;
    (eexists; split; [by rewrite <- ?app_assoc |];
     split; [done |]; split; [by eexists |]; first [not_in_calls | eauto]).
Qed.

(** X9.  Whatever the transport does, the calls of one [read] are a non-empty
    initial part of: a read, a read, a flush; the flush is made only when
    [read] raises. *)
Theorem read_call_discipline (self : adapter T) :
  exists calls,
    trace (snd (read self)) = (trace self ++ calls)%list /\
    calls <> [] /\
    calls `prefix_of` [ReadLine; ReadLine; Flush] /\
    (Flush ∈ calls -> exists e, fst (read self) = Raise e).
Proof.
  run_all;
    (eexists; split; [by rewrite <- ?app_assoc |];
     split; [done |]; split; [by eexists |]; first [not_in_calls | eauto]).
Qed.


(** X11.  [write] and [ask] set [lastcommand] before anything can read it, so
    they never end in an [AttributeError]; nor does [read] once [lastcommand]
    is set, and [read] leaves it set. *)
Theorem no_attribute_error (command msg : string) (check_ack : bool) (self : adapter T) :
  fst (write command check_ack self) <> Raise (AttributeError msg) /\
  fst (ask command self) <> Raise (AttributeError msg) /\
  (is_Some (lastcommand self) ->
   fst (read self) <> Raise (AttributeError msg) /\
   is_Some (lastcommand (snd (read self)))).
Proof.
  split; [| split].
  - run_all; done.
  - run_all; done.
  - intros [last Hlast]. rewrite read_keeps_lastcommand. split; [| by eexists].
    run_all; done.
Qed.

(** X12.  A failure of the transport passes through [read] and [write]
    unchanged and ends them on the spot, with no flush: a time-out on the
    data line leaves the second read undone; a time-out on the
    acknowledgement line drops the data line already read; in [write] a
    time-out on the echo or on the acknowledgement is raised as it is. *)
Theorem transport_failure_passes_through (self : adapter T) :
  (forall info t,
      visa_read (connection self) = (Failed info, t) ->
      read self =
        (Raise (TransportError info),
         Adapter t (lastcommand self) (trace self ++ [ReadLine]))) /\
  (forall data info t1 t2,
      visa_read (connection self) = (Done data, t1) ->
      visa_read t1 = (Failed info, t2) ->
      read self =
        (Raise (TransportError info),
         Adapter t2 (lastcommand self) (trace self ++ [ReadLine; ReadLine]))) /\
  (forall command check_ack info t1 t2,
      visa_write command (connection self) = (Done tt, t1) ->
      visa_read t1 = (Failed info, t2) ->
      write command check_ack self =
        (Raise (TransportError info),
         Adapter t2 (Some command) (trace self ++ [Write command; ReadLine]))) /\
  (forall command info t1 t2 t3,
      visa_write command (connection self) = (Done tt, t1) ->
      visa_read t1 = (Done "", t2) ->
      visa_read t2 = (Failed info, t3) ->
      write command true self =
        (Raise (TransportError info),
         Adapter t3 (Some command) (trace self ++ [Write command; ReadLine; ReadLine]))).
Proof.
  repeat split.
  - intros info t H1. unfold read, bind, super_read, on_connection. by rewrite H1.
  - intros data info t1 t2 H1 H2. unfold read, bind, super_read, on_connection.
    rewrite H1. simpl. rewrite H2. simpl. by rewrite <- app_assoc.
  - intros command check_ack info t1 t2 Hw H1.
    unfold write, bind, set_lastcommand, super_write, super_read, on_connection.
    simpl. rewrite Hw. simpl. rewrite H1. simpl. by rewrite <- app_assoc.
  - intros command info t1 t2 t3 Hw H1 H2. rewrite (write_echo _ _ _ _ _ _ Hw H1).
    simpl. unfold bind, super_read, on_connection. simpl. rewrite H2. simpl.
    by rewrite <- app_assoc.
Qed.

(** X13.  The two protocol errors are both [ValueError]s but never carry the
    same message, whatever the commands and replies: the message of the echo
    check starts with [TopticaAdapter.write:], that of the acknowledgement
    check with [TopticaAdapter:]. *)
Theorem messages_tell_errors_apart (command reply command' reply' : string) :
  echo_message command reply <> ack_message command' reply'.
Proof.
  intros He. apply (f_equal (String.get 14)) in He. vm_compute in He. discriminate.
Qed.

(** X14.  With [check_ack], an empty echo and an acknowledgement line other
    than ["[OK]"], [write] flushes once and raises the acknowledgement error
    naming the command just sent, whatever [lastcommand] was before. *)
Theorem write_bad_acknowledgement (command ack : string) (self : adapter T) t1 t2 t3 t4 :
  visa_write command (connection self) = (Done tt, t1) ->
  visa_read t1 = (Done "", t2) ->
  visa_read t2 = (Done ack, t3) ->
  visa_flush t3 = (Done tt, t4) ->
  ack <> "[OK]" ->
  write command true self =
    (Raise (ValueError (ack_message command ack)),
     Adapter t4 (Some command)
       (trace self ++ [Write command; ReadLine; ReadLine; Flush])).
Proof.
  intros Hw He Ha Hf Hne. rewrite (write_ack _ _ _ _ _ _ Hw He Ha).
  rewrite (check_bad ack command _ t4) by done. simpl. by rewrite <- app_assoc.
Qed.



(** X17.  A construction that fails has failed in the transport, on the reply
    to [talk usual] or in the sleep before that reply is read: a failing open
    is raised as it is, a protocol error always names the command
    [talk usual], the one other [ValueError] is that of a sleep of a negative
    query delay, and no [AttributeError] arises. *)
Theorem construction_failures (port : string) (baud_rate : Z)
    (kwargs : gmap string kwvalue) :
  (forall info,
      visa_open port (init_kwargs kwargs) = Failed info ->
      TopticaAdapter port baud_rate kwargs = Raise (TransportError info)) /\
  (forall msg,
      TopticaAdapter port baud_rate kwargs = Raise (ValueError msg) ->
      (exists reply,
          msg = echo_message "talk usual" reply \/ msg = ack_message "talk usual" reply) /\
      occurs_in "talk usual" msg \/
      msg = "sleep length must be non-negative") /\
  (forall msg, TopticaAdapter port baud_rate kwargs <> Raise (AttributeError msg)).
Proof.
  split; [| split].
  - intros info Ho. unfold TopticaAdapter. by rewrite Ho.
  - intros msg Hc. run_all;
      first [ by right
            | left; split; [by eauto |];
              (apply echo_message_command || apply ack_message_command) ].
  - intros msg Hc. run_all.
Qed.

End ExchangeExtra.

(** X18.  The constructor overrides nothing the caller passed: every keyword
    argument given is handed to the base class with the value given, every
    key other than the three defaulted ones is passed exactly as it was (set
    or not), and defaulting twice changes nothing more. *)
Theorem init_kwargs_keeps_caller_values (kwargs : gmap string kwvalue) :
  (forall key v, kwargs !! key = Some v -> init_kwargs kwargs !! key = Some v) /\
  (forall key,
      key <> "preprocess_reply" -> key <> "read_termination" ->
      key <> "write_termination" ->
      init_kwargs kwargs !! key = kwargs !! key) /\
  init_kwargs (init_kwargs kwargs) = init_kwargs kwargs.
Proof.
  assert (forall k d (m : gmap string kwvalue) key v,
             m !! key = Some v -> setdefault k d m !! key = Some v) as Hkeep.
  { intros k d m key v Hm. destruct (decide (k = key)) as [->|Hne].
    - rewrite setdefault_lookup. by rewrite Hm.
    - by rewrite setdefault_lookup_ne. }
  assert (forall k d (m : gmap string kwvalue),
             is_Some (m !! k) -> setdefault k d m = m) as Hid.
  { intros k d m [v Hv]. unfold setdefault. by rewrite Hv. }
  split; [| split].
  - intros key v Hk. unfold init_kwargs. by repeat apply Hkeep.
  - intros key H1 H2 H3. unfold init_kwargs. by rewrite !setdefault_lookup_ne.
  - unfold init_kwargs at 1.
    rewrite (Hid "preprocess_reply").
    2:{ unfold init_kwargs. rewrite !setdefault_lookup_ne by done.
        rewrite setdefault_lookup. by eexists. }
    rewrite (Hid "read_termination").
    2:{ unfold init_kwargs. rewrite setdefault_lookup_ne by done.
        rewrite setdefault_lookup. by eexists. }
    apply Hid. unfold init_kwargs. rewrite setdefault_lookup. by eexists.
Qed.

(** *** The further properties on scripted exchanges *)

Lemma read_returns_iff_witness :
  exists self', read (LT := bench) (holding ["x = 1"; "[OK]"; "next"] (Some "sh x")) =
                  (Ok "x = 1", self').
Proof.
  eexists.
  apply (proj2 (read_returns_iff (LT := bench)
                  (holding ["x = 1"; "[OK]"; "next"] (Some "sh x")) _ "x = 1")).
  eexists _, _. repeat split; reflexivity.
Defined.

Lemma write_returns_iff_witness :
  exists self', write (LT := bench) "set power 5" true (holding [""; "[OK]"] None) =
                  (Ok tt, self').
Proof.
  eexists.
  apply (proj2 (write_returns_iff (LT := bench) "set power 5" true
                  (holding [""; "[OK]"] None) _)).
  eexists _, _. repeat split; [reflexivity.. |]. eexists. split; reflexivity.
Defined.


Lemma write_call_discipline_witness :
  exists e, fst (write (LT := bench) "set power 5" true (holding [""; "[ERR]"] None)) = Raise e.
Proof.
  destruct (write_call_discipline (LT := bench) "set power 5" true
              (holding [""; "[ERR]"] None)) as (calls & Htrace & _ & _ & Hflush).
  apply Hflush. vm_compute in Htrace. subst calls.
  rewrite !elem_of_cons. tauto.
Defined.

Lemma read_call_discipline_witness :
  exists e, fst (read (LT := bench) (holding ["x = 1"; "[ERR]"] (Some "sh x"))) = Raise e.
Proof.
  destruct (read_call_discipline (LT := bench) (holding ["x = 1"; "[ERR]"] (Some "sh x")))
    as (calls & Htrace & _ & _ & Hflush).
  apply Hflush. vm_compute in Htrace. subst calls.
  rewrite !elem_of_cons. tauto.
Defined.


Lemma no_attribute_error_witness :
  fst (read (LT := bench) (holding ["x = 1"; "[ERR]"] (Some "sh x"))) <>
    Raise (AttributeError "'TopticaAdapter' object has no attribute 'lastcommand'") /\
  is_Some (lastcommand (snd (read (LT := bench) (holding ["x = 1"; "[ERR]"] (Some "sh x"))))).
Proof.
  apply (no_attribute_error (LT := bench) "sh x"
           "'TopticaAdapter' object has no attribute 'lastcommand'" true
           (holding ["x = 1"; "[ERR]"] (Some "sh x"))).
  by eexists.
Defined.

Lemma transport_failure_passes_through_witness :
  fst (read (LT := bench) (holding ["x = 1"] (Some "sh x"))) =
    Raise (TransportError "VI_ERROR_TMO") /\
  fst (write (LT := bench) "sh x" true (holding [] None)) =
    Raise (TransportError "VI_ERROR_TMO").
Proof.
  split.
  - destruct (transport_failure_passes_through (LT := bench)
                (holding ["x = 1"] (Some "sh x"))) as (_ & Hack & _).
    by rewrite (Hack "x = 1" "VI_ERROR_TMO" _ _ eq_refl eq_refl).
  - destruct (transport_failure_passes_through (LT := bench) (holding [] None))
      as (_ & _ & Hecho & _).
    by rewrite (Hecho "sh x" true "VI_ERROR_TMO" _ _ eq_refl eq_refl).
Defined.

Lemma write_bad_acknowledgement_witness :
  fst (write (LT := bench) "set power 5" true
         (holding [""; "[ERR] 17"; "stale"] (Some "sh pow"))) =
    Raise (ValueError
             "TopticaAdapter: Error after command 'set power 5' with message '[ERR] 17'").
Proof.
  rewrite (write_bad_acknowledgement (LT := bench) "set power 5" "[ERR] 17"
             (holding [""; "[ERR] 17"; "stale"] (Some "sh pow")) _ _ _ _
             eq_refl eq_refl eq_refl eq_refl); [reflexivity | discriminate].
Defined.



Lemma construction_failures_witness :
  TopticaAdapter (LT := ScriptedTransport [] [[]; []; ["garbage"]] 0.1%Q)
    "ASRL1::INSTR" 115200 ∅ =
    Raise (ValueError
             "TopticaAdapter.write: Error after command 'talk usual' with message 'garbage'") /\
  ((exists reply,
       "TopticaAdapter.write: Error after command 'talk usual' with message 'garbage'" =
         echo_message "talk usual" reply \/
       "TopticaAdapter.write: Error after command 'talk usual' with message 'garbage'" =
         ack_message "talk usual" reply) /\
   occurs_in "talk usual"
     "TopticaAdapter.write: Error after command 'talk usual' with message 'garbage'" \/
   "TopticaAdapter.write: Error after command 'talk usual' with message 'garbage'" =
     "sleep length must be non-negative").
Proof.
  assert (TopticaAdapter (LT := ScriptedTransport [] [[]; []; ["garbage"]] 0.1%Q)
            "ASRL1::INSTR" 115200 ∅ =
          Raise (ValueError
             "TopticaAdapter.write: Error after command 'talk usual' with message 'garbage'"))
    as Hc by reflexivity.
  split; [exact Hc |].
  exact (proj1 (proj2 (construction_failures
                         (LT := ScriptedTransport [] [[]; []; ["garbage"]] 0.1%Q)
                         "ASRL1::INSTR" 115200 ∅)) _ Hc).
Defined.

Lemma init_kwargs_keeps_caller_values_witness :
  init_kwargs {["write_termination" := KStr "\n"]} !! "write_termination" = Some (KStr "\n").
Proof.
  apply (proj1 (init_kwargs_keeps_caller_values {["write_termination" := KStr "\n"]})).
  apply lookup_singleton_eq.
Defined.

End Extra.
